(** * AI-Background-Remover: the upload gateway and its browser client

    A shallow embedding of the Express gateway (the [/upload] handler and
    the start-up code of the server script) and of the parts of
    [script.js] that read the gateway's answer, followed by the
    properties of the batch path that hold of them. *)

From Stdlib Require Import Ascii String List Arith Lia Bool.
From Stdlib Require Import Strings.Byte DecimalString.
From stdpp Require Import gmap strings list fin_maps.

Import ListNotations.
Set Warnings "-register-all,-clear-no-such-hyp".
Local Open Scope string_scope.
Local Open Scope list_scope.

(* ===================================================================== *)
(** * Part I. Definitions                                                 *)
(* ===================================================================== *)

(** ** JavaScript values used by the two programs *)

(** The double quote, written by code point so that no literal needs an
    escaped quote. *)
Definition dquote : ascii := Ascii.ascii_of_nat 34.

(** JSON documents, as [res.json] sends them and [response.json()] reads
    them back.  A number is [JNum n] when it is a natural number that
    JavaScript holds exactly (up to 2^53; minus zero counts as zero), and
    [JDouble shown] otherwise: a number that is not zero, known by the
    text [String] gives it. *)
Inductive JSON : Type :=
| JNull
| JBool (b : bool)
| JNum (n : nat)
| JStr (s : string)
| JArr (items : list JSON)
| JObj (fields : list (string * JSON))
| JDouble (shown : string).

(** ** script.js *)

Module Client.

(** The character class of the regular expression of [escapeHtml]:
    ampersand, less-than, greater-than, double quote, apostrophe. *)
Definition escape_class (c : ascii) : bool :=
  (Ascii.eqb c "&" || Ascii.eqb c "<" || Ascii.eqb c ">"
   || Ascii.eqb c dquote || Ascii.eqb c "'")%bool.

(** The object literal [map] of [escapeHtml], in source order. *)
Definition map : list (string * string) :=
  [ ("&", "&amp;");
    ("<", "&lt;");
    (">", "&gt;");
    (String dquote "", "&quot;");
    ("'", "&#39;") ].

(** Property read [map[s]]: the first field with that key. *)
Fixpoint get_field {V : Type} (k : string) (o : list (string * V)) : option V :=
  match o with
  | [] => None
  | (k', v) :: o' => if String.eqb k k' then Some v else get_field k o'
  end.

(** The callback [function (s) { return map[s] || ''; }]: a missing
    entry ([undefined]) and an empty string are both falsy. *)
Definition replacer (s : string) : string :=
  match get_field s map with
  | Some "" => ""
  | Some e => e
  | None => ""
  end.

(** [str.replace(re, f)] for a global regular expression that matches
    exactly the single characters of class [cls]: every match is
    replaced by the callback's result on the matched text, everything
    else is copied. *)
Fixpoint replace_class (cls : ascii -> bool) (f : string -> string)
         (str : string) : string :=
  match str with
  | EmptyString => EmptyString
  | String c rest =>
      ((if cls c then f (String c EmptyString) else String c EmptyString)
         ++ replace_class cls f rest)%string
  end.

Definition escapeHtml (str : string) : string :=
  replace_class escape_class replacer str.

(** The entity table as the specification words it. *)
Definition entity_of (c : ascii) : string :=
  if Ascii.eqb c "&" then "&amp;"
  else if Ascii.eqb c "<" then "&lt;"
  else if Ascii.eqb c ">" then "&gt;"
  else if Ascii.eqb c dquote then "&quot;"
  else if Ascii.eqb c "'" then "&#39;"
  else String c EmptyString.

(** The characters the result must not contain. *)
Definition markup_char (c : ascii) : bool :=
  (Ascii.eqb c "<" || Ascii.eqb c ">" || Ascii.eqb c dquote
   || Ascii.eqb c "'")%bool.

(** [c] occurs in [s]. *)
Fixpoint occurs (c : ascii) (s : string) : Prop :=
  match s with
  | EmptyString => False
  | String d rest => c = d \/ occurs c rest
  end.

(** JavaScript truthiness of a parsed JSON value. *)
Definition truthy (j : JSON) : bool :=
  match j with
  | JNull => false
  | JBool b => b
  | JNum n => negb (Nat.eqb n 0)
  | JStr s => negb (String.eqb s "")
  | JArr _ => true
  | JObj _ => true
  | JDouble _ => true
  end.

(** [payload.results || []], what the click handler of the process
    button passes to [displayProcessedResults]. *)
Definition payload_results (payload : JSON) : JSON :=
  match payload with
  | JObj fields =>
      match get_field "results" fields with
      | Some v => if truthy v then v else JArr []
      | None => JArr []
      end
  | _ => JArr []
  end.

(** An entry with the fields [displayProcessedResults] reads: [ok],
    [url] or [error], [name] and [ms]. *)
Definition has_field (k : string) (fields : list (string * JSON)) : bool :=
  match get_field k fields with
  | Some _ => true
  | None => false
  end.

Definition has_outcome_fields (item : JSON) : bool :=
  match item with
  | JObj fields =>
      has_field "ok" fields
      && (has_field "url" fields || has_field "error" fields)
      && has_field "name" fields
      && has_field "ms" fields
  | _ => false
  end.

End Client.

(** ** The world the gateway runs in *)

(** The part of the file system the gateway touches: the directories that
    exist and the regular files with their contents.  Paths are the
    strings the program passes to [fs], relative to the working
    directory. *)
Record FS : Type := mkFS {
  fs_dirs : gset string;
  fs_files : gmap string (list byte)
}.

(** The directory part of a path, what precedes its last slash; [None]
    for a path without a slash, an entry of the working directory. *)
Fixpoint dirname (p : string) : option string :=
  match p with
  | EmptyString => None
  | String c rest =>
      match dirname rest with
      | Some d => Some (String c d)
      | None => if Ascii.eqb c "/" then Some EmptyString else None
      end
  end.

(** The directory an entry is created in exists: the working directory
    and the root always do. *)
Definition parent_exists (p : string) (fs : FS) : bool :=
  match dirname p with
  | None => true
  | Some EmptyString => true
  | Some d => bool_decide (d ∈ fs_dirs fs)
  end.

Definition path_exists (p : string) (fs : FS) : bool :=
  bool_decide (p ∈ fs_dirs fs) || bool_decide (is_Some (fs_files fs !! p)).

(** One part of a multipart body: the field name, the path of the stream
    it was read from and the bytes read. *)
Record Part : Type := mkPart {
  part_name : string;
  part_path : string;
  part_data : list byte
}.

(** The request of one [axios.post] call, as the call sends it to the
    inference engine.  The random multipart boundary of the form-data
    library is not represented. *)
Record InferenceRequest : Type := mkInferenceRequest {
  rq_url : string;
  rq_headers : list (string * string);
  rq_parts : list Part
}.

(** What becomes of the request of one call.  [Responds]: an answer
    arrives after [latency] milliseconds, with a status and a body, and
    axios takes it as the answer of the call; a 3xx status here is one
    without a [Location] header.  [Refuses]: the connection fails.
    [Silent]: the connection stays open and nothing ever arrives.
    [Redirects]: the answer is a 3xx status with a [Location] header;
    axios follows it with a request of its own, and [next] is what
    becomes of that request.  [RedirectsTooOften]: the answer is one
    redirect more than axios follows. *)
Inductive Behaviour : Type :=
| Responds (latency : nat) (status : nat) (data : list byte)
| Refuses
| Silent
| Redirects (next : Behaviour)
| RedirectsTooOften.

(** The engine is an external, stateful service: what becomes of a call
    may depend on every call made before.  The history is the list of
    the requests of those calls, oldest first, whether or not they got
    through to the engine. *)
Definition Backend : Type :=
  list InferenceRequest -> InferenceRequest -> Behaviour.

(** Errors that reach a [catch] of the gateway. *)
Inductive JsError : Type :=
| ENOENT (p : string)
| ENOTDIR (p : string)
| EEXIST (p : string)
| EISDIR (p : string)
| ERR_BAD_RESPONSE (status : nat)
| ERR_FR_TOO_MANY_REDIRECTS
| ERR_NETWORK
| ECONNABORTED.

(** An Express response. *)
Inductive Body : Type :=
| JsonBody (j : JSON)
| TextBody (s : string).

Record Response : Type := mkResponse {
  res_status : nat;
  res_body : Body
}.

(** What [listen] is given: [process.env.PORT] is a string, the fallback
    a number. *)
Inductive Port : Type :=
| PortEnv (s : string)
| PortNum (n : nat).

(** Observable steps of an execution, in the order they happen.
    [EvPost rq]: [axios.post] is called and sends [rq]; [EvSettled]: the
    promise of the call in flight settles.  The requests axios sends on
    its own while it follows redirects are steps of the call, not events
    of the gateway. *)
Inductive Event : Type :=
| EvPost (rq : InferenceRequest)
| EvSettled
| EvWrite (p : string)
| EvUnlink (p : string)
| EvMkdir (p : string)
| EvConsoleError (msg : string) (e : JsError)
| EvRespond (r : Response)
| EvListen (port : Port).

(** The disk, the requests of the inference calls made so far (the
    history a [Backend] is asked with) and whether the server listens. *)
Record World : Type := mkWorld {
  fs : FS;
  served : list InferenceRequest;
  listening : bool
}.

(** How a piece of the program ends: it completes with a value, it
    throws, or it stays suspended at an [await] that never settles. *)
Inductive Completion (A : Type) : Type :=
| Normal (a : A)
| Throw (e : JsError)
| Pending.
Arguments Normal {A} a.
Arguments Throw {A} e.
Arguments Pending {A}.

(** A computation maps the world to its completion, the world it leaves
    and the events it produced, oldest first. *)
Definition M (A : Type) : Type := World -> Completion A * World * list Event.

#[export] Instance M_ret : MRet M := fun A a w => (Normal a, w, []).

#[export] Instance M_bind : MBind M := fun A B f m w =>
  match m w with
  | (Normal a, w1, t1) =>
      match f a w1 with
      | (c, w2, t2) => (c, w2, t1 ++ t2)
      end
  | (Throw e, w1, t1) => (Throw e, w1, t1)
  | (Pending, w1, t1) => (Pending, w1, t1)
  end.

(** [try { m } catch (error) { h error }] *)
Definition try_catch {A : Type} (m : M A) (h : JsError -> M A) : M A :=
  fun w =>
    match m w with
    | (Throw e, w1, t1) =>
        match h e w1 with
        | (c, w2, t2) => (c, w2, t1 ++ t2)
        end
    | r => r
    end.

(** [for (const x of xs) { body }], with the variables the body updates
    passed along. *)
Fixpoint for_of {A S : Type} (xs : list A) (body : A -> S -> M S) (s : S) : M S :=
  match xs with
  | [] => mret s
  | x :: rest => s' ← body x s; for_of rest body s'
  end.

Definition completion {A : Type} (r : Completion A * World * list Event) : Completion A :=
  r.1.1.
Definition world_after {A : Type} (r : Completion A * World * list Event) : World :=
  r.1.2.
Definition events {A : Type} (r : Completion A * World * list Event) : list Event :=
  r.2.

(** ** Node's fs module *)

Definition set_fs (w : World) (f : FS) : World :=
  {| fs := f; served := served w; listening := listening w |}.

Definition existsSync (p : string) : M bool :=
  fun w => (Normal (path_exists p (fs w)), w, []).

Definition mkdirSync (p : string) : M unit :=
  fun w =>
    if path_exists p (fs w) then (Throw (EEXIST p), w, [])
    else if negb (parent_exists p (fs w)) then (Throw (ENOENT p), w, [])
    else (Normal tt,
          set_fs w {| fs_dirs := {[ p ]} ∪ fs_dirs (fs w);
                      fs_files := fs_files (fs w) |},
          [EvMkdir p]).

(** The directories a path goes through: its prefixes that end before
    a slash. *)
Fixpoint ancestors (p : string) : list string :=
  match p with
  | EmptyString => []
  | String c rest =>
      (if Ascii.eqb c "/" then [EmptyString] else [])
        ++ List.map (String c) (ancestors rest)
  end.

(** Some prefix of the path that should be a directory is a regular
    file. *)
Definition through_file (p : string) (f : FS) : bool :=
  existsb (fun d => bool_decide (is_Some (fs_files f !! d))) (ancestors p).

(** Without a directory to create the file in, the error is ENOTDIR when
    a regular file is in the place of a directory of the path and ENOENT
    when the directory is missing. *)
Definition writeFileSync (p : string) (data : list byte) : M unit :=
  fun w =>
    if bool_decide (p ∈ fs_dirs (fs w)) then (Throw (EISDIR p), w, [])
    else if negb (parent_exists p (fs w))
         then (Throw (if through_file p (fs w) then ENOTDIR p else ENOENT p),
               w, [])
    else (Normal tt,
          set_fs w {| fs_dirs := fs_dirs (fs w);
                      fs_files := <[ p := data ]> (fs_files (fs w)) |},
          [EvWrite p]).

Definition unlinkSync (p : string) : M unit :=
  fun w =>
    match fs_files (fs w) !! p with
    | None => (Throw (ENOENT p), w, [])
    | Some _ =>
        (Normal tt,
         set_fs w {| fs_dirs := fs_dirs (fs w);
                     fs_files := delete p (fs_files (fs w)) |},
         [EvUnlink p])
    end.

(** A read stream is opened lazily: creating it touches nothing. *)
Record ReadStream : Type := mkReadStream { rs_path : string }.

Definition createReadStream (p : string) : ReadStream := mkReadStream p.

(** ** The form-data and axios libraries *)

Definition FormData : Type := list (string * ReadStream).

Definition new_FormData : FormData := [].

Definition FormData_append (name : string) (value : ReadStream)
           (fd : FormData) : FormData :=
  fd ++ [(name, value)].

Definition getHeaders (fd : FormData) : list (string * string) :=
  [("content-type", "multipart/form-data")].

(** The streams of a form are read when the request is sent. *)
Fixpoint read_parts (f : FS) (fd : FormData) : JsError + list Part :=
  match fd with
  | [] => inr []
  | (name, rs) :: rest =>
      match fs_files f !! rs_path rs with
      | None => inl (ENOENT (rs_path rs))
      | Some d =>
          match read_parts f rest with
          | inl e => inl e
          | inr ps => inr (mkPart name (rs_path rs) d :: ps)
          end
      end
  end.

(** The options object of a request.  [cfg_timeout] is [None] when the
    object has no [timeout] key; axios then uses its default, 0, which
    like an explicit 0 means no timeout. *)
Record AxiosConfig : Type := mkAxiosConfig {
  cfg_headers : list (string * string);
  cfg_responseType : string;
  cfg_timeout : option nat
}.

Record AxiosResponse : Type := mkAxiosResponse {
  status : nat;
  data : list byte
}.

Inductive Settlement : Type :=
| Resolved (r : AxiosResponse)
| Rejected (e : JsError)
| NeverSettles.

(** The timeout in force, if any. *)
Definition timeout_ms (cfg : AxiosConfig) : option nat :=
  match cfg_timeout cfg with
  | Some (S t) => Some (S t)
  | _ => None
  end.

(** How the promise of a call settles.  Redirects are followed to the
    answer they end in; with the default [validateStatus] an answer
    whose status is outside 200..299 rejects. *)
Fixpoint axios_settle (cfg : AxiosConfig) (b : Behaviour) : Settlement :=
  match b with
  | Responds latency st d =>
      match timeout_ms cfg with
      | Some t =>
          if (t <=? latency)%nat then Rejected ECONNABORTED
          else if ((200 <=? st) && (st <? 300))%nat then Resolved (mkAxiosResponse st d)
          else Rejected (ERR_BAD_RESPONSE st)
      | None =>
          if ((200 <=? st) && (st <? 300))%nat then Resolved (mkAxiosResponse st d)
          else Rejected (ERR_BAD_RESPONSE st)
      end
  | Refuses => Rejected ERR_NETWORK
  | Silent =>
      match timeout_ms cfg with
      | Some _ => Rejected ECONNABORTED
      | None => NeverSettles
      end
  | Redirects next => axios_settle cfg next
  | RedirectsTooOften => Rejected ERR_FR_TOO_MANY_REDIRECTS
  end.

Definition record_request (w : World) (rq : InferenceRequest) : World :=
  {| fs := fs w; served := served w ++ [rq]; listening := listening w |}.

(** [await axios.post(url, formData, cfg)] against the engine [backend].
    A stream that cannot be opened rejects the call before a request is
    sent; a call that sends its request is added to the history, however
    it ends. *)
Definition axios_post (backend : Backend) (url : string) (fd : FormData)
           (cfg : AxiosConfig) : M AxiosResponse :=
  fun w =>
    match read_parts (fs w) fd with
    | inl e => (Throw e, w, [])
    | inr parts =>
        let rq := mkInferenceRequest url (cfg_headers cfg) parts in
        match axios_settle cfg (backend (served w) rq) with
        | Resolved r => (Normal r, record_request w rq, [EvPost rq; EvSettled])
        | Rejected e => (Throw e, record_request w rq, [EvPost rq; EvSettled])
        | NeverSettles => (Pending, record_request w rq, [EvPost rq])
        end
    end.

(** ** Express *)

Definition emit (e : Event) : M unit := fun w => (Normal tt, w, [e]).

(** [res.json(j)] *)
Definition res_json (j : JSON) : M unit :=
  emit (EvRespond (mkResponse 200 (JsonBody j))).

(** [res.status(code).send(text)] *)
Definition res_status_send (code : nat) (text : string) : M unit :=
  emit (EvRespond (mkResponse code (TextBody text))).

Definition console_error (msg : string) (e : JsError) : M unit :=
  emit (EvConsoleError msg e).

Definition app_listen (port : Port) : M unit :=
  fun w =>
    (Normal tt,
     {| fs := fs w; served := served w; listening := true |},
     [EvListen port]).

(** A file as multer's disk storage describes it in [req.files]. *)
Record File : Type := mkFile {
  originalname : string;
  filename : string;
  path : string
}.

(** The request of the [/upload] route: what multer stored and the parsed
    query string. *)
Record Request : Type := mkRequest {
  req_files : list File;
  req_query : list (string * string)
}.

(** ** The gateway *)

Section Gateway.

Variable backend : Backend.

Definition inference_url : string :=
  "http://localhost:5001/remove-background".

(** The options the handler passes to [axios.post]. *)
Definition post_config (formData : FormData) : AxiosConfig :=
  {| cfg_headers := getHeaders formData;
     cfg_responseType := "arraybuffer";
     cfg_timeout := None |}.

(** The body of the loop over [req.files]; [processedImages] is the
    array the loop pushes to. *)
Definition process_file (file : File) (processedImages : list string)
  : M (list string) :=
  let formData :=
    FormData_append "file" (createReadStream (path file)) new_FormData in
  response ← axios_post backend inference_url formData (post_config formData);
  let processedImagePath := ("processed/" ++ filename file ++ ".png")%string in
  writeFileSync processedImagePath (data response) ;;
  let processedImages := processedImages ++ [processedImagePath] in
  unlinkSync (path file) ;;
  mret processedImages.

(** The handler of [app.post('/upload', ...)]. *)
Definition upload_handler (req : Request) : M unit :=
  try_catch
    (processedImages ← for_of (req_files req) process_file [];
     res_json (JObj [("processedImages", JArr (JStr <$> processedImages))]))
    (fun error =>
       console_error "Error processing images:" error ;;
       res_status_send 500 "Error processing images").

End Gateway.

(** ** Start-up *)

(** [if (!fs.existsSync(p)) { fs.mkdirSync(p); }] *)
Definition ensure_dir (p : string) : M unit :=
  present ← existsSync p;
  if negb present then mkdirSync p else mret tt.

Definition startup : M unit :=
  ensure_dir "uploads" ;; ensure_dir "processed".

(** [process.env.PORT || 3000]: an unset or empty variable is falsy. *)
Definition PORT (env_PORT : option string) : Port :=
  match env_PORT with
  | Some EmptyString => PortNum 3000
  | Some s => PortEnv s
  | None => PortNum 3000
  end.

(** The tail of the server script: the directory checks, then [listen]. *)
Definition main (env_PORT : option string) : M unit :=
  startup ;; app_listen (PORT env_PORT).

(** ** Readings of an execution *)

(** The responses sent. *)
Definition responses (t : list Event) : list Response :=
  omap (fun e => match e with EvRespond r => Some r | _ => None end) t.

(** The requests of the inference calls made, one per call. *)
Definition posts (t : list Event) : list InferenceRequest :=
  omap (fun e => match e with EvPost rq => Some rq | _ => None end) t.

(** The number of times [p] was unlinked. *)
Definition is_unlink (p : string) (e : Event) : bool :=
  match e with
  | EvUnlink q => String.eqb q p
  | _ => false
  end.

Definition unlinks (p : string) (t : list Event) : nat :=
  length (List.filter (is_unlink p) t).

(** The number of inference calls in flight after the events [t]. *)
Definition in_flight_step (n : nat) (e : Event) : nat :=
  match e with
  | EvPost _ => S n
  | EvSettled => Nat.pred n
  | _ => n
  end.

Definition in_flight (t : list Event) : nat :=
  fold_left in_flight_step t 0.

(** ** Vocabulary of the statements *)

(** The path the handler writes the output of [file] to. *)
Definition processedImagePath (file : File) : string :=
  ("processed/" ++ filename file ++ ".png")%string.

(** The request the handler sends for [file] when the stream of its
    temporary path yields [bytes]. *)
Definition request_for (file : File) (bytes : list byte) : InferenceRequest :=
  {| rq_url := inference_url;
     rq_headers := [("content-type", "multipart/form-data")];
     rq_parts := [mkPart "file" (path file) bytes] |}.

(** The two responses the handler can send. *)
Definition ok_response (files : list File) : Response :=
  mkResponse 200
    (JsonBody (JObj [("processedImages",
                      JArr (JStr <$> (processedImagePath <$> files)))])).

Definition error_response : Response :=
  mkResponse 500 (TextBody "Error processing images").

(** The entries a response carries: the items of the array that is, or
    is the only field of, its JSON body. *)
Definition outcome_entries (r : Response) : option (list JSON) :=
  match res_body r with
  | JsonBody (JArr items) => Some items
  | JsonBody (JObj [(_, JArr items)]) => Some items
  | _ => None
  end.

Fixpoint no_slash (s : string) : bool :=
  match s with
  | EmptyString => true
  | String c rest => negb (Ascii.eqb c "/") && no_slash rest
  end.

(** The batch is on disk as multer leaves it: every file under its own
    temporary path, under a generated name without a slash, and nothing
    but a regular file can be in the way of its output. *)
Definition stored (f : FS) (files : list File) : Prop :=
  NoDup (path <$> files)
  /\ forall x, x ∈ files ->
       is_Some (fs_files f !! path x)
       /\ no_slash (filename x) = true
       /\ processedImagePath x ∉ fs_dirs f.

(** The engine answers every request with a success status. *)
Definition always_succeeds (backend : Backend) : Prop :=
  forall history rq, exists latency st d,
    backend history rq = Responds latency st d /\ 200 <= st < 300.

(** The world an iteration leaves when the stream of its temporary file
    yielded [d], its call was answered with [bytes], the output was
    written and the input unlinked. *)
Definition after_file (file : File) (d bytes : list byte) (w : World) : World :=
  {| fs := {| fs_dirs := fs_dirs (fs w);
              fs_files := delete (path file)
                            (<[ processedImagePath file := bytes ]>
                               (fs_files (fs w))) |};
     served := served w ++ [request_for file d];
     listening := listening w |}.

(** Every item of this batch goes through: when its turn comes its
    temporary file is on disk, its inference call settles with an
    answer, and its output can be written, the output path being no
    directory and lying in a directory that exists.  The input can then
    be unlinked, and the next item finds the world the item left. *)
Fixpoint batch_succeeds (backend : Backend) (files : list File) (w : World)
  : bool :=
  match files with
  | [] => true
  | file :: rest =>
      match fs_files (fs w) !! path file with
      | None => false
      | Some d =>
          match axios_settle (post_config [])
                  (backend (served w) (request_for file d)) with
          | Resolved r =>
              negb (bool_decide (processedImagePath file ∈ fs_dirs (fs w)))
              && parent_exists (processedImagePath file) (fs w)
              && batch_succeeds backend rest (after_file file d (data r) w)
          | _ => false
          end
      end
  end.

(** Neither a request nor a settlement. *)
Definition neutral (e : Event) : bool :=
  match e with
  | EvPost _ => false
  | EvSettled => false
  | _ => true
  end.

(** The events one pass over [req.files] can produce: whole iterations
    (request, settlement, write, unlink), closed either by the end of the
    list ([true]) or by an iteration that stops early ([false]): its
    stream cannot be opened, its call never settles, or its call or its
    write throws. *)
Inductive loop_trace : bool -> list Event -> Prop :=
| loop_done : loop_trace true []
| loop_unsent : loop_trace false []
| loop_waiting rq : loop_trace false [EvPost rq]
| loop_thrown rq : loop_trace false [EvPost rq; EvSettled]
| loop_iteration rq out tmp b t :
    loop_trace b t ->
    loop_trace b ([EvPost rq; EvSettled; EvWrite out; EvUnlink tmp] ++ t).

Definition is_normal {A : Type} (c : Completion A) : bool :=
  match c with
  | Normal _ => true
  | _ => false
  end.

(** At no point of [t] is more than one inference call in flight. *)
Definition sequential (t : list Event) : Prop :=
  forall p, p `prefix_of` t -> in_flight p <= 1.

(** The world after [p] was created as a directory. *)
Definition add_dir (p : string) (w : World) : World :=
  set_fs w {| fs_dirs := {[ p ]} ∪ fs_dirs (fs w); fs_files := fs_files (fs w) |}.

(** ** Sample batches *)

Module Sample.

Definition cat : File := mkFile "cat.jpg" "3f1a" "uploads/3f1a".
Definition dog : File := mkFile "dog.jpg" "9c2b" "uploads/9c2b".
Definition owl : File := mkFile "owl.png" "e07d" "uploads/e07d".

(** The disk after multer has stored the three uploads. *)
Definition disk : FS :=
  {| fs_dirs := {[ "uploads" ]} ∪ {[ "processed" ]};
     fs_files := <[ "uploads/3f1a" := [x01] ]>
                   (<[ "uploads/9c2b" := [x02] ]>
                      (<[ "uploads/e07d" := [x03] ]> ∅)) |}.

Definition world : World :=
  {| fs := disk; served := []; listening := true |}.

(** An engine that serves every request. *)
Definition engine_ok : Backend :=
  fun _ _ => Responds 40 200 [x89; x50; x4e; x47].

(** An engine that answers 500 to its request number [n] (from 0) and
    serves every other one. *)
Definition engine_failing (n : nat) : Backend :=
  fun history _ =>
    if Nat.eqb (length history) n then Responds 40 500 []
    else Responds 40 200 [x89; x50; x4e; x47].


(** An engine that answers every request with a redirect to the place
    where it then serves it. *)
Definition engine_moved : Backend :=
  fun _ _ => Redirects (Responds 40 200 [x89; x50; x4e; x47]).

(** An engine that redirects for ever. *)
Definition engine_looping : Backend := fun _ _ => RedirectsTooOften.

(** An engine that is not running. *)
Definition engine_down : Backend := fun _ _ => Refuses.

(** A disk without the two directories. *)
Definition fresh_disk : FS := {| fs_dirs := ∅; fs_files := ∅ |}.

(** A world whose disk has the uploads but no [processed] directory:
    the start-up checks have not run. *)
Definition unprepared : World :=
  {| fs := {| fs_dirs := {[ "uploads" ]}; fs_files := fs_files disk |};
     served := []; listening := true |}.

(** The same, with a regular file where the [processed] directory
    should be. *)
Definition blocked : World :=
  {| fs := {| fs_dirs := {[ "uploads" ]};
              fs_files := <[ "processed" := [] ]> (fs_files disk) |};
     served := []; listening := true |}.

End Sample.

(** ** script.js: the page *)

Module Page.

(** *** JavaScript conversions *)

Definition decimal (n : nat) : string :=
  NilZero.string_of_uint (Nat.to_uint n).

(** [String(v)] of a value of a parsed JSON document, as the template
    literals and the string concatenations of the page compute it;
    [None] when the conversion throws a TypeError.  An object is
    converted by the [toString] it finds: the inherited one gives
    [[object Object]]; a field of that name is not callable, and then no
    conversion is left.  An array is the comma-joined strings of its
    elements, with [null] elements empty. *)
Fixpoint to_string (j : JSON) : option string :=
  match j with
  | JNull => Some "null"
  | JBool true => Some "true"
  | JBool false => Some "false"
  | JNum n => Some (decimal n)
  | JDouble shown => Some shown
  | JStr s => Some s
  | JArr items =>
      String.concat "," <$>
        (fix elements (l : list JSON) : option (list string) :=
           match l with
           | [] => Some []
           | x :: rest =>
               match match x with
                     | JNull => Some ""
                     | _ => to_string x
                     end, elements rest with
               | Some s, Some ss => Some (s :: ss)
               | _, _ => None
               end
           end) items
  | JObj fields =>
      if Client.has_field "toString" fields then None
      else Some "[object Object]"
  end.

(** A value that may be [undefined] ([None]). *)
Definition String_of (v : option JSON) : option string :=
  match v with
  | Some j => to_string j
  | None => Some "undefined"
  end.

Definition truthy_value (v : option JSON) : bool :=
  match v with
  | Some j => Client.truthy j
  | None => false
  end.

(** [v || d] *)
Definition or_else (v : option JSON) (d : JSON) : JSON :=
  match v with
  | Some j => if Client.truthy j then j else d
  | None => d
  end.

(** The property [k] of a value other than [null]: only objects have the
    properties the page reads. *)
Definition prop (k : string) (item : JSON) : option JSON :=
  match item with
  | JObj fields => Client.get_field k fields
  | _ => None
  end.

(** [s.split(sep)] for a one-character separator. *)
Fixpoint split (sep : ascii) (s : string) : list string :=
  match s with
  | EmptyString => [EmptyString]
  | String c rest =>
      if Ascii.eqb c sep then EmptyString :: split sep rest
      else match split sep rest with
           | piece :: pieces => String c piece :: pieces
           | [] => [String c EmptyString]
           end
  end.

(** [(a || d)] for a string that may be [undefined]. *)
Definition or_string (v : option string) (d : string) : string :=
  match v with
  | Some EmptyString => d
  | Some s => s
  | None => d
  end.

(** The [download] attribute the download handler gives the link of an
    image with source [src]:
    [(src.split('/').pop() || 'image.png').split('?')[0]];
    [None] would be [undefined]. *)
Definition download_name (src : string) : option string :=
  head (split "?" (or_string (last (split "/" src)) "image.png")).

(** *** The document *)

(** A file the user picked, as the page sees it. *)
Record ClientFile : Type := mkClientFile {
  file_name : string;
  file_type : string;
  file_bytes : list byte
}.

(** An [img] of the gallery: its [src] and [alt] attributes, its class
    list, its [data-index] and whether it carries the click listener
    that toggles the selection. *)
Record Img : Type := mkImg {
  src : string;
  alt : string;
  classList : gset string;
  dataset_index : option nat;
  toggles : bool
}.

(** A [div.thumb] of the gallery: the image and the text of its
    caption. *)
Record Thumb : Type := mkThumb {
  img : Img;
  caption : string
}.

Definition with_class (cls : gset string) (t : Thumb) : Thumb :=
  {| img := {| src := src (img t); alt := alt (img t); classList := cls;
               dataset_index := dataset_index (img t);
               toggles := toggles (img t) |};
     caption := caption t |}.

Definition has_class (c : string) (t : Thumb) : bool :=
  bool_decide (c ∈ classList (img t)).

(** [classList.add], [classList.remove], [classList.toggle] on the image
    of a thumb. *)
Definition add_class (c : string) (t : Thumb) : Thumb :=
  with_class ({[ c ]} ∪ classList (img t)) t.

Definition remove_class (c : string) (t : Thumb) : Thumb :=
  with_class (classList (img t) ∖ {[ c ]}) t.

Definition toggle_class (c : string) (t : Thumb) : Thumb :=
  if has_class c t then remove_class c t else add_class c t.

(** The controls of the settings panel with a [value]. *)
Inductive Control : Type :=
| ObjectType
| Preset
| TrimapThreshold
| TrimapDilation
| TrimapErosion
| FeatherRadius
| AlphaThreshold.

(** The values of the controls and the texts of the five labels that
    show the sliders' values. *)
Record Controls : Type := mkControls {
  objectType : string;
  preset : string;
  trimapThreshold : string;
  trimapDilation : string;
  trimapErosion : string;
  featherRadius : string;
  alphaThreshold : string;
  trimapThresholdValue : string;
  trimapDilationValue : string;
  trimapErosionValue : string;
  featherRadiusValue : string;
  alphaThresholdValue : string
}.

(** The three buttons. *)
Record Buttons : Type := mkButtons {
  processDisabled : bool;
  selectAllDisabled : bool;
  downloadDisabled : bool;
  processText : string
}.

(** One entry of the form the process button submits. *)
Inductive FormEntry : Type :=
| EntryFile (f : ClientFile)
| EntryString (s : string).

(** A request to [/upload]: the query parameters and the entries of the
    [images] field. *)
Record UploadRequest : Type := mkUploadRequest {
  up_params : list (string * string);
  up_images : list FormEntry
}.

(** The page: the document, the variable [uploadedFiles], the work in
    progress (file reads, upload requests, the info request) and what
    the user was shown or handed (alerts, console errors, downloads as
    pairs of [href] and [download]). *)
Record Ui : Type := mkUi {
  gallery : list Thumb;
  dragging : bool;
  controls : Controls;
  buttons : Buttons;
  runtimeInfo : string;
  uploadedFiles : list ClientFile;
  reads : list (nat * ClientFile);
  uploads : list UploadRequest;
  info_pending : bool;
  alerts : list string;
  errors : list string;
  downloads : list (string * string)
}.

Definition set_gallery (g : list Thumb) (u : Ui) : Ui :=
  {| gallery := g; dragging := dragging u; controls := controls u;
     buttons := buttons u; runtimeInfo := runtimeInfo u;
     uploadedFiles := uploadedFiles u; reads := reads u;
     uploads := uploads u; info_pending := info_pending u;
     alerts := alerts u; errors := errors u; downloads := downloads u |}.

Definition set_dragging (b : bool) (u : Ui) : Ui :=
  {| gallery := gallery u; dragging := b; controls := controls u;
     buttons := buttons u; runtimeInfo := runtimeInfo u;
     uploadedFiles := uploadedFiles u; reads := reads u;
     uploads := uploads u; info_pending := info_pending u;
     alerts := alerts u; errors := errors u; downloads := downloads u |}.

Definition set_controls (c : Controls) (u : Ui) : Ui :=
  {| gallery := gallery u; dragging := dragging u; controls := c;
     buttons := buttons u; runtimeInfo := runtimeInfo u;
     uploadedFiles := uploadedFiles u; reads := reads u;
     uploads := uploads u; info_pending := info_pending u;
     alerts := alerts u; errors := errors u; downloads := downloads u |}.

Definition set_buttons (b : Buttons) (u : Ui) : Ui :=
  {| gallery := gallery u; dragging := dragging u; controls := controls u;
     buttons := b; runtimeInfo := runtimeInfo u;
     uploadedFiles := uploadedFiles u; reads := reads u;
     uploads := uploads u; info_pending := info_pending u;
     alerts := alerts u; errors := errors u; downloads := downloads u |}.

Definition set_info (text : string) (u : Ui) : Ui :=
  {| gallery := gallery u; dragging := dragging u; controls := controls u;
     buttons := buttons u; runtimeInfo := text;
     uploadedFiles := uploadedFiles u; reads := reads u;
     uploads := uploads u; info_pending := false;
     alerts := alerts u; errors := errors u; downloads := downloads u |}.

Definition set_files (files : list ClientFile) (u : Ui) : Ui :=
  {| gallery := gallery u; dragging := dragging u; controls := controls u;
     buttons := buttons u; runtimeInfo := runtimeInfo u;
     uploadedFiles := files; reads := reads u;
     uploads := uploads u; info_pending := info_pending u;
     alerts := alerts u; errors := errors u; downloads := downloads u |}.

Definition set_reads (r : list (nat * ClientFile)) (u : Ui) : Ui :=
  {| gallery := gallery u; dragging := dragging u; controls := controls u;
     buttons := buttons u; runtimeInfo := runtimeInfo u;
     uploadedFiles := uploadedFiles u; reads := r;
     uploads := uploads u; info_pending := info_pending u;
     alerts := alerts u; errors := errors u; downloads := downloads u |}.

Definition set_uploads (r : list UploadRequest) (u : Ui) : Ui :=
  {| gallery := gallery u; dragging := dragging u; controls := controls u;
     buttons := buttons u; runtimeInfo := runtimeInfo u;
     uploadedFiles := uploadedFiles u; reads := reads u;
     uploads := r; info_pending := info_pending u;
     alerts := alerts u; errors := errors u; downloads := downloads u |}.

(** [alert(text)] *)
Definition alert (text : string) (u : Ui) : Ui :=
  {| gallery := gallery u; dragging := dragging u; controls := controls u;
     buttons := buttons u; runtimeInfo := runtimeInfo u;
     uploadedFiles := uploadedFiles u; reads := reads u;
     uploads := uploads u; info_pending := info_pending u;
     alerts := alerts u ++ [text]; errors := errors u;
     downloads := downloads u |}.

(** [console.error(text, ...)] *)
Definition console_error (text : string) (u : Ui) : Ui :=
  {| gallery := gallery u; dragging := dragging u; controls := controls u;
     buttons := buttons u; runtimeInfo := runtimeInfo u;
     uploadedFiles := uploadedFiles u; reads := reads u;
     uploads := uploads u; info_pending := info_pending u;
     alerts := alerts u; errors := errors u ++ [text];
     downloads := downloads u |}.

Definition add_downloads (links : list (string * string)) (u : Ui) : Ui :=
  {| gallery := gallery u; dragging := dragging u; controls := controls u;
     buttons := buttons u; runtimeInfo := runtimeInfo u;
     uploadedFiles := uploadedFiles u; reads := reads u;
     uploads := uploads u; info_pending := info_pending u;
     alerts := alerts u; errors := errors u;
     downloads := downloads u ++ links |}.

(** *** The settings panel *)

(** A number of the [presets] table, by its decimal notation: an integer
    or a number with one fractional digit, which is not 0. *)
Inductive Literal : Type :=
| Int (n : nat)
| Frac (n tenths : nat).

(** [String(x)] *)
Definition String_literal (x : Literal) : string :=
  match x with
  | Int n => decimal n
  | Frac n tenths => (decimal n ++ "." ++ decimal tenths)%string
  end.

Record PresetEntry : Type := mkPreset {
  object_type : string;
  trimap_prob_threshold : Literal;
  trimap_dilation : Literal;
  trimap_erosion_iters : Literal;
  feather_radius : Literal;
  alpha_threshold : Literal
}.

Definition presets : list (string * PresetEntry) :=
  [ ("auto", mkPreset "hairs-like" (Int 231) (Int 30) (Int 5) (Int 0) (Int 0));
    ("portrait", mkPreset "hairs-like" (Int 230) (Int 24) (Int 4) (Frac 1 5) (Int 0));
    ("product", mkPreset "object" (Int 240) (Int 18) (Int 3) (Frac 0 5) (Int 10));
    ("illustration", mkPreset "object" (Int 245) (Int 14) (Int 2) (Int 0) (Int 0)) ].

(** The names every object inherits from [Object.prototype]: reading one
    of them from [presets] yields a function or an object, not
    [undefined]. *)
Definition inherited (k : string) : bool :=
  bool_decide (k ∈ [ "constructor"; "hasOwnProperty"; "isPrototypeOf";
                     "propertyIsEnumerable"; "toLocaleString"; "toString";
                     "valueOf"; "__proto__"; "__defineGetter__";
                     "__defineSetter__"; "__lookupGetter__";
                     "__lookupSetter__" ]).

(** The value of a control. *)
Definition value (c : Control) (s : Controls) : string :=
  match c with
  | ObjectType => objectType s
  | Preset => preset s
  | TrimapThreshold => trimapThreshold s
  | TrimapDilation => trimapDilation s
  | TrimapErosion => trimapErosion s
  | FeatherRadius => featherRadius s
  | AlphaThreshold => alphaThreshold s
  end.

(** The control [c] holds [v]. *)
Definition set_value (c : Control) (v : string) (s : Controls) : Controls :=
  match c with
  | ObjectType =>
      {| objectType := v; preset := preset s;
         trimapThreshold := trimapThreshold s;
         trimapDilation := trimapDilation s;
         trimapErosion := trimapErosion s;
         featherRadius := featherRadius s;
         alphaThreshold := alphaThreshold s;
         trimapThresholdValue := trimapThresholdValue s;
         trimapDilationValue := trimapDilationValue s;
         trimapErosionValue := trimapErosionValue s;
         featherRadiusValue := featherRadiusValue s;
         alphaThresholdValue := alphaThresholdValue s |}
  | Preset =>
      {| objectType := objectType s; preset := v;
         trimapThreshold := trimapThreshold s;
         trimapDilation := trimapDilation s;
         trimapErosion := trimapErosion s;
         featherRadius := featherRadius s;
         alphaThreshold := alphaThreshold s;
         trimapThresholdValue := trimapThresholdValue s;
         trimapDilationValue := trimapDilationValue s;
         trimapErosionValue := trimapErosionValue s;
         featherRadiusValue := featherRadiusValue s;
         alphaThresholdValue := alphaThresholdValue s |}
  | TrimapThreshold =>
      {| objectType := objectType s; preset := preset s;
         trimapThreshold := v; trimapDilation := trimapDilation s;
         trimapErosion := trimapErosion s;
         featherRadius := featherRadius s;
         alphaThreshold := alphaThreshold s;
         trimapThresholdValue := trimapThresholdValue s;
         trimapDilationValue := trimapDilationValue s;
         trimapErosionValue := trimapErosionValue s;
         featherRadiusValue := featherRadiusValue s;
         alphaThresholdValue := alphaThresholdValue s |}
  | TrimapDilation =>
      {| objectType := objectType s; preset := preset s;
         trimapThreshold := trimapThreshold s; trimapDilation := v;
         trimapErosion := trimapErosion s;
         featherRadius := featherRadius s;
         alphaThreshold := alphaThreshold s;
         trimapThresholdValue := trimapThresholdValue s;
         trimapDilationValue := trimapDilationValue s;
         trimapErosionValue := trimapErosionValue s;
         featherRadiusValue := featherRadiusValue s;
         alphaThresholdValue := alphaThresholdValue s |}
  | TrimapErosion =>
      {| objectType := objectType s; preset := preset s;
         trimapThreshold := trimapThreshold s;
         trimapDilation := trimapDilation s; trimapErosion := v;
         featherRadius := featherRadius s;
         alphaThreshold := alphaThreshold s;
         trimapThresholdValue := trimapThresholdValue s;
         trimapDilationValue := trimapDilationValue s;
         trimapErosionValue := trimapErosionValue s;
         featherRadiusValue := featherRadiusValue s;
         alphaThresholdValue := alphaThresholdValue s |}
  | FeatherRadius =>
      {| objectType := objectType s; preset := preset s;
         trimapThreshold := trimapThreshold s;
         trimapDilation := trimapDilation s;
         trimapErosion := trimapErosion s; featherRadius := v;
         alphaThreshold := alphaThreshold s;
         trimapThresholdValue := trimapThresholdValue s;
         trimapDilationValue := trimapDilationValue s;
         trimapErosionValue := trimapErosionValue s;
         featherRadiusValue := featherRadiusValue s;
         alphaThresholdValue := alphaThresholdValue s |}
  | AlphaThreshold =>
      {| objectType := objectType s; preset := preset s;
         trimapThreshold := trimapThreshold s;
         trimapDilation := trimapDilation s;
         trimapErosion := trimapErosion s;
         featherRadius := featherRadius s; alphaThreshold := v;
         trimapThresholdValue := trimapThresholdValue s;
         trimapDilationValue := trimapDilationValue s;
         trimapErosionValue := trimapErosionValue s;
         featherRadiusValue := featherRadiusValue s;
         alphaThresholdValue := alphaThresholdValue s |}
  end.

(** The text of the label of a slider; the two selects have none. *)
Definition label (c : Control) (s : Controls) : option string :=
  match c with
  | ObjectType => None
  | Preset => None
  | TrimapThreshold => Some (trimapThresholdValue s)
  | TrimapDilation => Some (trimapDilationValue s)
  | TrimapErosion => Some (trimapErosionValue s)
  | FeatherRadius => Some (featherRadiusValue s)
  | AlphaThreshold => Some (alphaThresholdValue s)
  end.

(** [label.textContent = input.value] for the label of slider [c]. *)
Definition show_value (c : Control) (s : Controls) : Controls :=
  match c with
  | ObjectType => s
  | Preset => s
  | TrimapThreshold =>
      {| objectType := objectType s; preset := preset s;
         trimapThreshold := trimapThreshold s;
         trimapDilation := trimapDilation s;
         trimapErosion := trimapErosion s;
         featherRadius := featherRadius s;
         alphaThreshold := alphaThreshold s;
         trimapThresholdValue := trimapThreshold s;
         trimapDilationValue := trimapDilationValue s;
         trimapErosionValue := trimapErosionValue s;
         featherRadiusValue := featherRadiusValue s;
         alphaThresholdValue := alphaThresholdValue s |}
  | TrimapDilation =>
      {| objectType := objectType s; preset := preset s;
         trimapThreshold := trimapThreshold s;
         trimapDilation := trimapDilation s;
         trimapErosion := trimapErosion s;
         featherRadius := featherRadius s;
         alphaThreshold := alphaThreshold s;
         trimapThresholdValue := trimapThresholdValue s;
         trimapDilationValue := trimapDilation s;
         trimapErosionValue := trimapErosionValue s;
         featherRadiusValue := featherRadiusValue s;
         alphaThresholdValue := alphaThresholdValue s |}
  | TrimapErosion =>
      {| objectType := objectType s; preset := preset s;
         trimapThreshold := trimapThreshold s;
         trimapDilation := trimapDilation s;
         trimapErosion := trimapErosion s;
         featherRadius := featherRadius s;
         alphaThreshold := alphaThreshold s;
         trimapThresholdValue := trimapThresholdValue s;
         trimapDilationValue := trimapDilationValue s;
         trimapErosionValue := trimapErosion s;
         featherRadiusValue := featherRadiusValue s;
         alphaThresholdValue := alphaThresholdValue s |}
  | FeatherRadius =>
      {| objectType := objectType s; preset := preset s;
         trimapThreshold := trimapThreshold s;
         trimapDilation := trimapDilation s;
         trimapErosion := trimapErosion s;
         featherRadius := featherRadius s;
         alphaThreshold := alphaThreshold s;
         trimapThresholdValue := trimapThresholdValue s;
         trimapDilationValue := trimapDilationValue s;
         trimapErosionValue := trimapErosionValue s;
         featherRadiusValue := featherRadius s;
         alphaThresholdValue := alphaThresholdValue s |}
  | AlphaThreshold =>
      {| objectType := objectType s; preset := preset s;
         trimapThreshold := trimapThreshold s;
         trimapDilation := trimapDilation s;
         trimapErosion := trimapErosion s;
         featherRadius := featherRadius s;
         alphaThreshold := alphaThreshold s;
         trimapThresholdValue := trimapThresholdValue s;
         trimapDilationValue := trimapDilationValue s;
         trimapErosionValue := trimapErosionValue s;
         featherRadiusValue := featherRadiusValue s;
         alphaThresholdValue := alphaThreshold s |}
  end.
(** *** The handlers *)

(** How a request the page made has settled: the connection failed, or a
    response arrived, with its [ok] flag and, when its body parses as
    JSON, the parsed value. *)
Inductive FetchOutcome : Type :=
| NetworkError
| Answered (ok : bool) (payload : option JSON).

(** What the user and the browser do to the page. *)
Inductive Action : Type :=
| Input (c : Control) (v : string)
| DragEnter
| DragOver
| DragLeave
| Drop (files : list ClientFile)
| FilesChosen (files : list ClientFile)
| ReadLoaded (k : nat) (dataURL : string)
| ReadFailed (k : nat)
| ThumbClick (i : nat)
| SelectAllClick
| DownloadClick
| ProcessClick
| UploadSettled (k : nat) (o : FetchOutcome)
| InfoSettled (o : FetchOutcome).

Section Handlers.

(** Three things the page's markup and the browser decide: the value a
    control holds after the script assigns [v] to it (a select keeps
    only the values of its options, a range input only those of its
    range), the absolute URL the [src] property of an image reads as,
    and [encodeURIComponent], which throws a URIError ([None]) on a text
    with an unpaired surrogate. *)
Variable assign : Control -> string -> string.
Variable resolve : string -> string.
Variable encodeURIComponent : string -> option string.

Definition maybeSetCustomPreset (s : Controls) : Controls :=
  if negb (String.eqb (preset s) "custom")
  then set_value Preset (assign Preset "custom") s
  else s.

(** The assignments of the preset listener, in source order, then the
    five labels. *)
Definition apply_preset (ot t d e f a : string) (s : Controls) : Controls :=
  let s := set_value ObjectType (assign ObjectType ot) s in
  let s := set_value TrimapThreshold (assign TrimapThreshold t) s in
  let s := set_value TrimapDilation (assign TrimapDilation d) s in
  let s := set_value TrimapErosion (assign TrimapErosion e) s in
  let s := set_value FeatherRadius (assign FeatherRadius f) s in
  let s := set_value AlphaThreshold (assign AlphaThreshold a) s in
  let s := show_value TrimapThreshold s in
  let s := show_value TrimapDilation s in
  let s := show_value TrimapErosion s in
  let s := show_value FeatherRadius s in
  show_value AlphaThreshold s.

(** The [change] listener of the preset select. *)
Definition on_preset_change (s : Controls) : Controls :=
  match Client.get_field (preset s) presets with
  | Some p =>
      apply_preset (object_type p)
        (String_literal (trimap_prob_threshold p))
        (String_literal (trimap_dilation p))
        (String_literal (trimap_erosion_iters p))
        (String_literal (feather_radius p))
        (String_literal (alpha_threshold p)) s
  | None =>
      if inherited (preset s)
      then apply_preset "undefined" "undefined" "undefined" "undefined"
             "undefined" "undefined" s
      else s
  end.

(** The listener of control [c], run once the browser has stored the
    value the user chose. *)
Definition on_input (c : Control) (s : Controls) : Controls :=
  match c with
  | TrimapThreshold => show_value TrimapThreshold s
  | TrimapDilation => show_value TrimapDilation s
  | TrimapErosion => maybeSetCustomPreset (show_value TrimapErosion s)
  | FeatherRadius => maybeSetCustomPreset (show_value FeatherRadius s)
  | AlphaThreshold => maybeSetCustomPreset (show_value AlphaThreshold s)
  | ObjectType => maybeSetCustomPreset s
  | Preset => on_preset_change s
  end.

(** [displayImages(files)]: the gallery is emptied and one read per file
    is started; the thumbnails come as the reads complete. *)
Definition displayImages (files : list ClientFile) (u : Ui) : Ui :=
  set_reads (reads u ++ imap (fun index file => (index, file)) files)
    (set_gallery [] u).

(** The [onload] of the read of [file], started at position [index]. *)
Definition loaded_thumb (index : nat) (file : ClientFile) (dataURL : string)
  : Thumb :=
  {| img := {| src := dataURL; alt := ""; classList := ∅;
               dataset_index := Some index; toggles := true |};
     caption := file_name file |}.

Definition nl : string := String (Ascii.ascii_of_nat 10) EmptyString.

Definition quoted (s : string) : string :=
  (String dquote s ++ String dquote EmptyString)%string.

Fixpoint spaces (n : nat) : string :=
  match n with
  | O => EmptyString
  | S n' => String " " (spaces n')
  end.

(** The template literal of the placeholder image, around [text]. *)
Definition placeholder_svg (text : string) : string :=
  ("<svg xmlns=" ++ quoted "http://www.w3.org/2000/svg"
   ++ " width=" ++ quoted "300" ++ " height=" ++ quoted "200" ++ ">" ++ nl
   ++ spaces 24 ++ "<rect width=" ++ quoted "100%" ++ " height="
   ++ quoted "100%" ++ " fill=" ++ quoted "#ffe6e6" ++ "/>" ++ nl
   ++ spaces 24 ++ "<text x=" ++ quoted "50%" ++ " y=" ++ quoted "50%"
   ++ " dominant-baseline=" ++ quoted "middle"
   ++ " text-anchor=" ++ quoted "middle" ++ " fill=" ++ quoted "#cc0000"
   ++ " font-family=" ++ quoted "sans-serif"
   ++ " font-size=" ++ quoted "14" ++ ">" ++ nl
   ++ spaces 28 ++ text ++ nl
   ++ spaces 24 ++ "</text>" ++ nl
   ++ spaces 20 ++ "</svg>")%string.

(** The thumbnail [displayProcessedResults] builds for one item, [None]
    when building it throws: reading a property of [null], a conversion
    to a string and [encodeURIComponent] can.  The thumbnail is appended
    to the gallery as the last step, so an item that throws leaves
    none. *)
Definition result_thumb (item : JSON) : option Thumb :=
  match item with
  | JNull => None
  | _ =>
      if truthy_value (prop "ok" item)
      then
        url ← String_of (prop "url" item);
        name ← String_of (prop "name" item);
        ms ← to_string (or_else (prop "ms" item) (JNum 0));
        Some {| img := {| src := url; alt := "";
                          classList := {[ "processed" ]};
                          dataset_index := None; toggles := false |};
                caption := (name ++ " ✓ (" ++ ms ++ "ms)")%string |}
      else
        text ← to_string (or_else (prop "error" item) (JStr "Failed"));
        encoded ← encodeURIComponent
                    (placeholder_svg (Client.escapeHtml text));
        name ← String_of (prop "name" item);
        Some {| img := {| src := ("data:image/svg+xml;charset=UTF-8,"
                                  ++ encoded)%string;
                          alt := "Error";
                          classList := {[ "error" ]};
                          dataset_index := None; toggles := false |};
                caption := (name ++ " ✗")%string |}
  end.

(** [results.forEach(...)] over an array: thumbnails are appended until
    an item throws. *)
Fixpoint append_results (items : list JSON) (g : list Thumb)
  : list Thumb * bool :=
  match items with
  | [] => (g, false)
  | item :: rest =>
      match result_thumb item with
      | Some t => append_results rest (g ++ [t])
      | None => (g, true)
      end
  end.

(** [displayProcessedResults(results)]: the new content of the gallery
    and whether the call threw.  Only an array has [forEach]. *)
Definition displayProcessedResults (results : JSON) : list Thumb * bool :=
  match results with
  | JArr items => append_results items []
  | _ => ([], true)
  end.

Definition setLoading (loading : bool) (u : Ui) : Ui :=
  set_buttons
    {| processDisabled := loading;
       selectAllDisabled := loading;
       downloadDisabled := loading;
       processText := if loading then "Processing…" else "Process Images" |}
    u.

(** The click listener of the select-all button. *)
Definition on_select_all (u : Ui) : Ui :=
  let allSelected := forallb (has_class "selected") (gallery u) in
  set_gallery
    (List.map (fun t => if allSelected then remove_class "selected" t
                        else add_class "selected" t)
       (gallery u))
    u.

(** The click listener of a thumbnail made by [displayImages]. *)
Definition on_thumb_click (i : nat) (u : Ui) : Ui :=
  match gallery u !! i with
  | Some t =>
      if toggles (img t)
      then set_gallery (<[ i := toggle_class "selected" t ]> (gallery u)) u
      else u
  | None => u
  end.

(** The link the download listener makes and clicks for an image. *)
Definition download_link (t : Thumb) : string * string :=
  (resolve (src (img t)),
   default "undefined" (download_name (resolve (src (img t))))).

(** The click listener of the download button. *)
Definition on_download (u : Ui) : Ui :=
  let processedImages := List.filter (has_class "processed") (gallery u) in
  if Nat.eqb (length processedImages) 0
  then alert "No processed images to download." u
  else add_downloads (List.map download_link processedImages) u.

(** [uploadedFiles[parseInt(img.dataset.index)]], as [FormData.append]
    stores it: a missing index or file appends the string
    [undefined]. *)
Definition form_entry (files : list ClientFile) (t : Thumb) : FormEntry :=
  match dataset_index (img t) with
  | Some index =>
      match files !! index with
      | Some f => EntryFile f
      | None => EntryString "undefined"
      end
  | None => EntryString "undefined"
  end.

(** The query string with the settings, before encoding. *)
Definition query (s : Controls) : list (string * string) :=
  [ ("object_type", objectType s);
    ("trimap_prob_threshold", trimapThreshold s);
    ("trimap_dilation", trimapDilation s);
    ("trimap_erosion_iters", trimapErosion s);
    ("feather_radius", featherRadius s);
    ("alpha_threshold", alphaThreshold s) ].

(** The click listener of the process button, up to its [await fetch]. *)
Definition on_process (u : Ui) : Ui :=
  let selectedImages := List.filter (has_class "selected") (gallery u) in
  if Nat.eqb (length selectedImages) 0
  then alert "Please select images to process." u
  else
    let u := setLoading true u in
    set_uploads
      (uploads u
       ++ [ {| up_params := query (controls u);
               up_images := List.map (form_entry (uploadedFiles u))
                              selectedImages |} ])
      u.

(** The [catch] block of the process listener. *)
Definition processing_failed (u : Ui) : Ui :=
  alert "An error occurred while processing the images."
    (console_error "Error:" u).

(** The rest of the process listener, once its request has settled. *)
Definition on_upload_settled (o : FetchOutcome) (u : Ui) : Ui :=
  let u :=
    match o with
    | NetworkError => processing_failed u
    | Answered ok payload =>
        match payload with
        | Some p =>
            if ok && Client.truthy p
            then
              match displayProcessedResults (Client.payload_results p) with
              | (g, false) => set_gallery g u
              | (g, true) => processing_failed (set_gallery g u)
              end
            else processing_failed u
        | None => processing_failed u
        end
    end in
  setLoading false u.

(** The text [loadInfo] shows for the answer of [/info], [None] when a
    conversion throws. *)
Definition info_text (j : JSON) : option string :=
  device ← String_of (prop "device" j);
  gpu ← (if truthy_value (prop "gpu" j)
         then g ← String_of (prop "gpu" j); Some (" (" ++ g ++ ")")%string
         else Some "");
  torch ← String_of (prop "torch" j);
  level ← String_of (prop "png_compress_level" j);
  Some ("Device: " ++ device ++ gpu
        ++ " · Torch " ++ torch
        ++ " · FP16: " ++ (if truthy_value (prop "fp16" j) then "on" else "off")
        ++ " · PNG level: " ++ level)%string.

(** [loadInfo], once its request has settled: whatever throws in its
    [try] block ends in the [catch]. *)
Definition on_info_settled (o : FetchOutcome) (u : Ui) : Ui :=
  match o with
  | Answered true (Some JNull) => set_info "Backend info unavailable" u
  | Answered true (Some j) =>
      match info_text j with
      | Some text => set_info text u
      | None => set_info "Backend info unavailable" u
      end
  | _ => set_info "Backend info unavailable" u
  end.

(** The page after one action.  A disabled button receives no click; a
    settlement or a load that matches no work in progress does not
    happen. *)
Definition step (a : Action) (u : Ui) : Ui :=
  match a with
  | Input c v =>
      set_controls (on_input c (set_value c v (controls u))) u
  | DragEnter => set_dragging true u
  | DragOver => set_dragging true u
  | DragLeave => set_dragging false u
  | Drop dropped =>
      let u := set_dragging false u in
      let files :=
        List.filter (fun f => String.prefix "image/" (file_type f)) dropped in
      if Nat.eqb (length files) 0 then u
      else displayImages files (set_files files u)
  | FilesChosen files => displayImages files (set_files files u)
  | ReadLoaded k dataURL =>
      match reads u !! k with
      | Some (index, file) =>
          set_gallery (gallery u ++ [loaded_thumb index file dataURL])
            (set_reads (delete k (reads u)) u)
      | None => u
      end
  | ReadFailed k => set_reads (delete k (reads u)) u
  | ThumbClick i => on_thumb_click i u
  | SelectAllClick =>
      if selectAllDisabled (buttons u) then u else on_select_all u
  | DownloadClick =>
      if downloadDisabled (buttons u) then u else on_download u
  | ProcessClick =>
      if processDisabled (buttons u) then u else on_process u
  | UploadSettled k o =>
      match uploads u !! k with
      | Some _ => on_upload_settled o (set_uploads (delete k (uploads u)) u)
      | None => u
      end
  | InfoSettled o =>
      if info_pending u then on_info_settled o u else u
  end.

(** The page after a sequence of actions, oldest first. *)
Definition run (actions : list Action) (u : Ui) : Ui :=
  fold_left (fun u a => step a u) actions u.

(** The [DOMContentLoaded] listener on the document [dom] as the markup
    gives it: the labels take the values of their sliders,
    [uploadedFiles] is empty and the info request is sent. *)
Definition init (dom : Ui) : Ui :=
  let s := controls dom in
  let s := show_value TrimapThreshold s in
  let s := show_value TrimapDilation s in
  let s := show_value TrimapErosion s in
  let s := show_value FeatherRadius s in
  let s := show_value AlphaThreshold s in
  {| gallery := gallery dom; dragging := dragging dom; controls := s;
     buttons := buttons dom; runtimeInfo := runtimeInfo dom;
     uploadedFiles := []; reads := []; uploads := []; info_pending := true;
     alerts := []; errors := []; downloads := [] |}.

End Handlers.

(** *** Vocabulary of the statements *)

(** Every label shows the value of its slider. *)
Definition labels_shown (s : Controls) : Prop :=
  trimapThresholdValue s = trimapThreshold s
  /\ trimapDilationValue s = trimapDilation s
  /\ trimapErosionValue s = trimapErosion s
  /\ featherRadiusValue s = featherRadius s
  /\ alphaThresholdValue s = alphaThreshold s.

(** The buttons while a batch is processed, and otherwise. *)
Definition busy_buttons : Buttons :=
  {| processDisabled := true; selectAllDisabled := true;
     downloadDisabled := true; processText := "Processing…" |}.

Definition idle_buttons : Buttons :=
  {| processDisabled := false; selectAllDisabled := false;
     downloadDisabled := false; processText := "Process Images" |}.

(** No upload request is in flight, or exactly one is and the buttons
    are disabled. *)
Definition one_upload (u : Ui) : Prop :=
  uploads u = []
  \/ ((exists rq, uploads u = [rq]) /\ buttons u = busy_buttons).

(** Every index a thumbnail or a read in progress carries points, in
    [uploadedFiles], at the file it was made for. *)
Definition indexed (u : Ui) : Prop :=
  (forall t i, t ∈ gallery u -> dataset_index (img t) = Some i ->
               exists f, uploadedFiles u !! i = Some f
                         /\ file_name f = caption t)
  /\ (forall i f, (i, f) ∈ reads u -> uploadedFiles u !! i = Some f).

(** The actions that replace [uploadedFiles]. *)
Definition selects (a : Action) : bool :=
  match a with
  | FilesChosen _ => true
  | Drop _ => true
  | _ => false
  end.

(** What the process listener receives for a response of the gateway:
    the body [res.json] sent parses back to the value sent; a text body
    parses as [JSON.parse], here [JSON_parse], decides. *)
Definition fetched (JSON_parse : string -> option JSON) (r : Response)
  : FetchOutcome :=
  Answered ((200 <=? res_status r)%nat && (res_status r <=? 299)%nat)
    (match res_body r with
     | JsonBody j => Some j
     | TextBody s => JSON_parse s
     end).

Section Statements.

Variable assign : Control -> string -> string.
Variable resolve : string -> string.
Variable encodeURIComponent : string -> option string.

(** In the run of [actions] from [u], files are only chosen or dropped
    while no read is in progress. *)
Fixpoint calm (actions : list Action) (u : Ui) : Prop :=
  match actions with
  | [] => True
  | a :: rest =>
      (selects a = true -> reads u = [])
      /\ calm rest (step assign resolve encodeURIComponent a u)
  end.

End Statements.

End Page.

(** ** A sample page *)

Module PageSample.

(** Controls that accept every value assigned, sources that are already
    absolute, and an encoder that leaves its argument alone. *)
Definition accept : Page.Control -> string -> string := fun _ v => v.
Definition absolute : string -> string := fun url => url.

(** Controls that do not accept every value: a select keeps a value
    that is one of its options and becomes empty on any other, a slider
    keeps a text of at most three characters and falls back to 0 on any
    other. *)
Definition strict : Page.Control -> string -> string :=
  fun c v =>
    match c with
    | Page.ObjectType =>
        if String.eqb v "object" || String.eqb v "hairs-like" then v else ""
    | Page.Preset =>
        if existsb (String.eqb v)
             ["auto"; "portrait"; "product"; "illustration"; "custom"]
        then v else ""
    | _ => if (String.length v <=? 3)%nat then v else "0"
    end.
Definition plain : string -> option string := fun text => Some text.

Definition cat_jpg : Page.ClientFile :=
  Page.mkClientFile "cat.jpg" "image/jpeg" [x01].
Definition dog_jpg : Page.ClientFile :=
  Page.mkClientFile "dog.jpg" "image/jpeg" [x02].
Definition notes_txt : Page.ClientFile :=
  Page.mkClientFile "notes.txt" "text/plain" [x03].

(** The document before the script runs: an empty gallery, the controls
    on the [auto] preset, enabled buttons. *)
Definition dom : Page.Ui :=
  {| Page.gallery := [];
     Page.dragging := false;
     Page.controls :=
       {| Page.objectType := "hairs-like"; Page.preset := "auto";
          Page.trimapThreshold := "231"; Page.trimapDilation := "30";
          Page.trimapErosion := "5"; Page.featherRadius := "0";
          Page.alphaThreshold := "0";
          Page.trimapThresholdValue := ""; Page.trimapDilationValue := "";
          Page.trimapErosionValue := ""; Page.featherRadiusValue := "";
          Page.alphaThresholdValue := "" |};
     Page.buttons := Page.idle_buttons;
     Page.runtimeInfo := "";
     Page.uploadedFiles := [];
     Page.reads := [];
     Page.uploads := [];
     Page.info_pending := false;
     Page.alerts := [];
     Page.errors := [];
     Page.downloads := [] |}.

Definition step : Page.Action -> Page.Ui -> Page.Ui :=
  Page.step accept absolute plain.

Definition run : list Page.Action -> Page.Ui -> Page.Ui :=
  Page.run accept absolute plain.

(** Two files chosen, read in reverse order, and the thumbnail that
    arrived first clicked. *)
Definition two_thumbs : Page.Ui :=
  run [ Page.FilesChosen [cat_jpg; dog_jpg];
        Page.ReadLoaded 1 "data:image/jpeg;base64,AgI=";
        Page.ReadLoaded 0 "data:image/jpeg;base64,AQE=";
        Page.ThumbClick 0 ]
      (Page.init dom).

End PageSample.

(* ===================================================================== *)
(** * Part II. Properties                                                 *)
(* ===================================================================== *)

(** ** script.js: escapeHtml *)

Lemma occurs_app c s t :
  Client.occurs c (s ++ t)%string <-> Client.occurs c s \/ Client.occurs c t.
Proof.
  induction s as [|d s IH]; simpl.
  - tauto.
  - rewrite IH. tauto.
Qed.

Lemma escapeHtml_cons c rest :
  Client.escapeHtml (String c rest)
  = (Client.entity_of c ++ Client.escapeHtml rest)%string.
Proof.
  unfold Client.escapeHtml; simpl. f_equal.
  unfold Client.escape_class, Client.entity_of.
  destruct (Ascii.eqb_spec c "&") as [->|]; [reflexivity|].
  destruct (Ascii.eqb_spec c "<") as [->|]; [reflexivity|].
  destruct (Ascii.eqb_spec c ">") as [->|]; [reflexivity|].
  destruct (Ascii.eqb_spec c dquote) as [->|]; [reflexivity|].
  destruct (Ascii.eqb_spec c "'") as [->|]; [reflexivity|].
  reflexivity.
Qed.

Lemma entity_of_no_markup c d :
  Client.occurs d (Client.entity_of c) -> Client.markup_char d = false.
Proof.
  unfold Client.entity_of.
  destruct (Ascii.eqb_spec c "&") as [->|]; [|
  destruct (Ascii.eqb_spec c "<") as [->|]; [|
  destruct (Ascii.eqb_spec c ">") as [->|]; [|
  destruct (Ascii.eqb_spec c dquote) as [->|]; [|
  destruct (Ascii.eqb_spec c "'") as [->|]]]]];
    simpl; intros H;
    repeat (destruct H as [->|H]; [reflexivity|]); try contradiction.
  destruct H as [->|[]].
  unfold Client.markup_char.
  repeat match goal with
         | H : ?a <> ?b |- context [Ascii.eqb ?a ?b] =>
             destruct (Ascii.eqb_spec a b); [contradiction|]
         end.
  reflexivity.
Qed.

(** C10. For every string [s], [escapeHtml s] is [s] with each of the five
    characters [&], [<], [>], the double quote and the apostrophe replaced
    by its entity and every other character copied; in particular the
    result contains none of [<], [>], the double quote or the
    apostrophe. *)
Theorem escapeHtml_entities_no_markup :
  forall s : string,
    (forall c, Client.occurs c (Client.escapeHtml s) -> Client.markup_char c = false)
    /\ Client.escapeHtml s
       = fold_right String.append ""
           (List.map Client.entity_of (list_ascii_of_string s)).
Proof.
  induction s as [|c s [IHm IHe]].
  - split; [intros c []|reflexivity].
  - rewrite escapeHtml_cons. split.
    + intros d Hd. apply occurs_app in Hd as [Hd|Hd].
      * exact (entity_of_no_markup _ _ Hd).
      * exact (IHm _ Hd).
    + rewrite IHe. reflexivity.
Qed.
(** ** The monad *)

Lemma bind_normal {A B : Type} (m : M A) (f : A -> M B) w a w1 t1 :
  m w = (Normal a, w1, t1) ->
  (m ≫= f) w = (completion (f a w1), world_after (f a w1), t1 ++ events (f a w1)).
Proof.
  intros H. unfold mbind, M_bind. rewrite H.
  destruct (f a w1) as [[c w2] t2]. reflexivity.
Qed.

Lemma bind_throw {A B : Type} (m : M A) (f : A -> M B) w e w1 t1 :
  m w = (Throw e, w1, t1) -> (m ≫= f) w = (Throw e, w1, t1).
Proof. intros H. unfold mbind, M_bind. rewrite H. reflexivity. Qed.

Lemma bind_pending {A B : Type} (m : M A) (f : A -> M B) w w1 t1 :
  m w = (Pending, w1, t1) -> (m ≫= f) w = (Pending, w1, t1).
Proof. intros H. unfold mbind, M_bind. rewrite H. reflexivity. Qed.

Lemma result_eta {A : Type} (r : Completion A * World * list Event) :
  r = (completion r, world_after r, events r).
Proof. destruct r as [[c w] t]. reflexivity. Qed.


Lemma completion_triple {A : Type} (c : Completion A) w t :
  completion (c, w, t) = c.
Proof. reflexivity. Qed.

Lemma for_of_app {A S : Type} (xs ys : list A) (body : A -> S -> M S) s w :
  for_of (xs ++ ys) body s w
  = (for_of xs body s ≫= for_of ys body) w.
Proof.
  revert s w. induction xs as [|x xs IH]; intros s w.
  - simpl. unfold mbind, M_bind, mret, M_ret.
    destruct (for_of ys body s w) as [[c w2] t2]. reflexivity.
  - simpl. unfold mbind, M_bind.
    destruct (body x s w) as [[[s1| e |] w1] t1]; try reflexivity.
    rewrite IH. unfold mbind, M_bind.
    destruct (for_of xs body s1 w1) as [[[s2| e |] w2] t2]; try reflexivity.
    destruct (for_of ys body s2 w2) as [[c w3] t3].
    rewrite app_assoc. reflexivity.
Qed.

(** ** One iteration of the loop *)

Section Iteration.

Variable backend : Backend.

Lemma read_parts_file f (file : File) :
  read_parts f (FormData_append "file" (createReadStream (path file)) new_FormData)
  = match fs_files f !! path file with
    | Some d => inr [mkPart "file" (path file) d]
    | None => inl (ENOENT (path file))
    end.
Proof. simpl. destruct (fs_files f !! path file); reflexivity. Qed.

(** The temporary file cannot be opened: the call is rejected before a
    request is sent. *)
Lemma process_file_unreadable file acc w :
  fs_files (fs w) !! path file = None ->
  process_file backend file acc w = (Throw (ENOENT (path file)), w, []).
Proof.
  intros H. unfold process_file. apply bind_throw.
  unfold axios_post. rewrite read_parts_file, H. reflexivity.
Qed.

Lemma process_file_rejected file acc w d e :
  fs_files (fs w) !! path file = Some d ->
  axios_settle (post_config []) (backend (served w) (request_for file d))
  = Rejected e ->
  process_file backend file acc w
  = (Throw e, record_request w (request_for file d),
     [EvPost (request_for file d); EvSettled]).
Proof.
  intros H Hs. unfold process_file. apply bind_throw.
  unfold axios_post. rewrite read_parts_file, H.
  change (mkInferenceRequest _ _ _) with (request_for file d).
  change (post_config _) with (post_config []).
  rewrite Hs. reflexivity.
Qed.

Lemma process_file_pending file acc w d :
  fs_files (fs w) !! path file = Some d ->
  axios_settle (post_config []) (backend (served w) (request_for file d))
  = NeverSettles ->
  process_file backend file acc w
  = (Pending, record_request w (request_for file d),
     [EvPost (request_for file d)]).
Proof.
  intros H Hs. unfold process_file. apply bind_pending.
  unfold axios_post. rewrite read_parts_file, H.
  change (mkInferenceRequest _ _ _) with (request_for file d).
  change (post_config _) with (post_config []).
  rewrite Hs. reflexivity.
Qed.

(** The world an iteration leaves when every step of it succeeds. *)
Lemma process_file_resolved file acc w d r :
  fs_files (fs w) !! path file = Some d ->
  axios_settle (post_config []) (backend (served w) (request_for file d))
  = Resolved r ->
  processedImagePath file ∉ fs_dirs (fs w) ->
  parent_exists (processedImagePath file) (fs w) = true ->
  process_file backend file acc w
  = (Normal (acc ++ [processedImagePath file]),
     {| fs := {| fs_dirs := fs_dirs (fs w);
                 fs_files := delete (path file)
                               (<[ processedImagePath file := data r ]>
                                  (fs_files (fs w))) |};
        served := served w ++ [request_for file d];
        listening := listening w |},
     [EvPost (request_for file d); EvSettled;
      EvWrite (processedImagePath file); EvUnlink (path file)]).
Proof.
  intros H Hs Hd Hp. unfold process_file.
  erewrite bind_normal; cycle 1.
  { unfold axios_post. rewrite read_parts_file, H.
    change (mkInferenceRequest _ _ _) with (request_for file d).
    change (post_config _) with (post_config []).
    rewrite Hs. reflexivity. }
  fold (processedImagePath file).
  unfold mbind, M_bind, mret, M_ret, writeFileSync, unlinkSync, completion, world_after, events.
  cbn [fs record_request set_fs served listening fs_dirs fs_files].
  rewrite bool_decide_eq_false_2 by exact Hd.
  rewrite Hp. cbn [negb fs set_fs fs_files fs_dirs served listening fst snd].
  destruct (decide (processedImagePath file = path file)) as [E|E].
  - rewrite E, lookup_insert_eq. reflexivity.
  - rewrite lookup_insert_ne, H by exact E. reflexivity.
Qed.

(** The call is answered but the output cannot be written: the path is
    a directory, or there is no directory to create the file in. *)
Lemma process_file_unwritable file acc w d r :
  fs_files (fs w) !! path file = Some d ->
  axios_settle (post_config []) (backend (served w) (request_for file d))
  = Resolved r ->
  negb (bool_decide (processedImagePath file ∈ fs_dirs (fs w)))
  && parent_exists (processedImagePath file) (fs w) = false ->
  exists e,
    process_file backend file acc w
    = (Throw e, record_request w (request_for file d),
       [EvPost (request_for file d); EvSettled]).
Proof.
  intros H Hs Hw. unfold process_file.
  erewrite bind_normal; cycle 1.
  { unfold axios_post. rewrite read_parts_file, H.
    change (mkInferenceRequest _ _ _) with (request_for file d).
    change (post_config _) with (post_config []).
    rewrite Hs. reflexivity. }
  fold (processedImagePath file).
  unfold mbind, M_bind, writeFileSync, completion, world_after, events.
  cbn [fs record_request].
  destruct (bool_decide (processedImagePath file ∈ fs_dirs (fs w))).
  - eexists. reflexivity.
  - cbn [negb andb] in Hw. rewrite Hw. eexists. reflexivity.
Qed.

End Iteration.

Section Loop.

Variable backend : Backend.

(** Every way an iteration can end. *)
Lemma process_file_cases file acc w :
  let r := process_file backend file acc w in
  (fs_files (fs w) !! path file = None
   /\ r = (Throw (ENOENT (path file)), w, []))
  \/ exists d, fs_files (fs w) !! path file = Some d
     /\ let rq := request_for file d in
        (r = (Pending, record_request w rq, [EvPost rq])
         \/ (exists e, r = (Throw e, record_request w rq, [EvPost rq; EvSettled]))
         \/ (exists bytes,
               r = (Normal (acc ++ [processedImagePath file]),
                    {| fs := {| fs_dirs := fs_dirs (fs w);
                                fs_files := delete (path file)
                                              (<[ processedImagePath file := bytes ]>
                                                 (fs_files (fs w))) |};
                       served := served w ++ [rq];
                       listening := listening w |},
                    [EvPost rq; EvSettled;
                     EvWrite (processedImagePath file); EvUnlink (path file)]))).
Proof.
  intros r. subst r.
  destruct (fs_files (fs w) !! path file) as [d|] eqn:H.
  2:{ left. split; [reflexivity|]. by apply process_file_unreadable. }
  right. exists d. split; [reflexivity|]. intros rq.
  destruct (axios_settle (post_config [])
              (backend (served w) (request_for file d))) as [r|e|] eqn:Hs.
  - destruct (bool_decide (processedImagePath file ∈ fs_dirs (fs w))) eqn:Hd.
    { right; left. exists (EISDIR (processedImagePath file)).
      unfold process_file.
      erewrite bind_normal; cycle 1.
      { unfold axios_post. rewrite read_parts_file, H.
        change (mkInferenceRequest _ _ _) with (request_for file d).
        change (post_config _) with (post_config []).
        rewrite Hs. reflexivity. }
      fold (processedImagePath file).
      unfold mbind, M_bind, writeFileSync, completion, world_after, events.
      cbn [fs record_request]. rewrite Hd. reflexivity. }
    destruct (parent_exists (processedImagePath file) (fs w)) eqn:Hp.
    2:{ right; left. eexists.
      unfold process_file.
      erewrite bind_normal; cycle 1.
      { unfold axios_post. rewrite read_parts_file, H.
        change (mkInferenceRequest _ _ _) with (request_for file d).
        change (post_config _) with (post_config []).
        rewrite Hs. reflexivity. }
      fold (processedImagePath file).
      unfold mbind, M_bind, writeFileSync, completion, world_after, events.
      cbn [fs record_request]. rewrite Hd, Hp. reflexivity. }
    right; right. exists (data r).
    apply bool_decide_eq_false in Hd.
    by apply process_file_resolved.
  - right; left. exists e. by apply process_file_rejected.
  - left. by apply process_file_pending.
Qed.

(** The loop produces a loop trace, complete exactly when it completes,
    and then with one output path pushed per file, in order. *)
Lemma for_of_trace files acc w :
  let r := for_of files (process_file backend) acc w in
  loop_trace (is_normal (completion r)) (events r)
  /\ (forall imgs, completion r = Normal imgs ->
                   imgs = acc ++ (processedImagePath <$> files)).
Proof.
  revert acc w. induction files as [|file files IH]; intros acc w r; subst r.
  - simpl. split; [constructor|]. intros imgs [= <-]. by rewrite app_nil_r.
  - simpl for_of.
    destruct (process_file_cases file acc w) as [[_ E]|(d & _ & [E|[[e E]|[b E]]])].
    + rewrite (bind_throw _ _ _ _ _ _ E). simpl. split; [constructor|done].
    + rewrite (bind_pending _ _ _ _ _ E). simpl. split; [constructor|done].
    + rewrite (bind_throw _ _ _ _ _ _ E). simpl. split; [constructor|done].
    + rewrite (bind_normal _ _ _ _ _ _ E).
      match goal with
      | |- context [for_of files _ ?a ?w'] => destruct (IH a w') as [IHt IHv]
      end.
      unfold completion, events in *. cbn [fst snd] in *.
      split; [by constructor|].
      intros imgs Himgs. rewrite (IHv _ Himgs).
      rewrite fmap_cons, <- app_assoc. reflexivity.
Qed.

End Loop.

(** ** Traces *)

Lemma prefix_cons_cases {A : Type} (p : list A) x l :
  p `prefix_of` x :: l -> p = [] \/ exists p', p = x :: p' /\ p' `prefix_of` l.
Proof.
  destruct p as [|y p]; [by left|]. intros H. right.
  pose proof (prefix_cons_inv_1 _ _ _ _ H) as ->.
  exists p. split; [reflexivity|]. by apply prefix_cons_inv_2 in H.
Qed.

Lemma prefix_app_cases {A : Type} (p t1 t2 : list A) :
  p `prefix_of` t1 ++ t2 ->
  p `prefix_of` t1 \/ exists k, p = t1 ++ k /\ k `prefix_of` t2.
Proof.
  revert p. induction t1 as [|x t1 IH]; intros p H.
  - right. by exists p.
  - apply prefix_cons_cases in H as [->|(p' & -> & H)].
    + left. apply prefix_nil.
    + destruct (IH _ H) as [Hp|(k & -> & Hk)].
      * left. by apply prefix_cons.
      * right. by exists k.
Qed.

Lemma in_flight_app t1 t2 :
  in_flight (t1 ++ t2) = fold_left in_flight_step t2 (in_flight t1).
Proof. unfold in_flight. apply fold_left_app. Qed.

Lemma in_flight_neutral t n :
  forallb neutral t = true -> fold_left in_flight_step t n = n.
Proof.
  revert n. induction t as [|e t IH]; intros n H; [reflexivity|].
  simpl in H. apply andb_prop in H as [He Ht].
  simpl. rewrite IH by exact Ht. by destruct e.
Qed.

Lemma neutral_prefix p t :
  p `prefix_of` t -> forallb neutral t = true -> forallb neutral p = true.
Proof.
  intros [k ->]. rewrite forallb_app. intros H.
  by apply andb_prop in H as [? _].
Qed.

Lemma sequential_app_neutral t tail :
  sequential t -> forallb neutral tail = true -> sequential (t ++ tail).
Proof.
  intros Ht Hn p Hp.
  apply prefix_app_cases in Hp as [Hp|(k & -> & Hk)]; [by apply Ht|].
  rewrite in_flight_app, in_flight_neutral by eauto using neutral_prefix.
  apply Ht. reflexivity.
Qed.

(** In a loop trace calls are issued one at a time, and none is in
    flight once the loop has completed. *)
Lemma loop_trace_sequential b t :
  loop_trace b t -> sequential t /\ (b = true -> in_flight t = 0).
Proof.
  induction 1 as [| |rq|rq|rq out tmp b t _ [IHs IHc]].
  - split; [|done]. intros p Hp. apply prefix_nil_inv in Hp as ->. (unfold in_flight; simpl; lia).
  - split; [|done]. intros p Hp. apply prefix_nil_inv in Hp as ->. (unfold in_flight; simpl; lia).
  - split; [|done]. intros p Hp.
    apply prefix_cons_cases in Hp as [->|(p1 & -> & Hp)]; [(unfold in_flight; simpl; lia)|].
    apply prefix_nil_inv in Hp as ->. unfold in_flight; simpl; lia.
  - split; [|done]. intros p Hp.
    apply prefix_cons_cases in Hp as [->|(p1 & -> & Hp)]; [(unfold in_flight; simpl; lia)|].
    apply prefix_cons_cases in Hp as [->|(p2 & -> & Hp)]; [(unfold in_flight; simpl; lia)|].
    apply prefix_nil_inv in Hp as ->. unfold in_flight; simpl; lia.
  - split.
    + intros p Hp. simpl in Hp.
      apply prefix_cons_cases in Hp as [->|(p1 & -> & Hp)]; [(unfold in_flight; simpl; lia)|].
      apply prefix_cons_cases in Hp as [->|(p2 & -> & Hp)]; [(unfold in_flight; simpl; lia)|].
      apply prefix_cons_cases in Hp as [->|(p3 & -> & Hp)]; [(unfold in_flight; simpl; lia)|].
      apply prefix_cons_cases in Hp as [->|(p4 & -> & Hp)]; [(unfold in_flight; simpl; lia)|].
      change (in_flight p4 <= 1). by apply IHs.
    + intros Hb. change (in_flight t = 0). by apply IHc.
Qed.

Lemma loop_trace_responses b t : loop_trace b t -> responses t = [].
Proof. induction 1; done. Qed.

Lemma responses_app t1 t2 : responses (t1 ++ t2) = responses t1 ++ responses t2.
Proof. unfold responses. apply omap_app. Qed.

Lemma posts_app t1 t2 : posts (t1 ++ t2) = posts t1 ++ posts t2.
Proof. unfold posts. apply omap_app. Qed.

(** ** The handler in terms of its loop *)

Lemma upload_handler_unfold backend req w :
  upload_handler backend req w
  = let l := for_of (req_files req) (process_file backend) [] w in
    match completion l with
    | Normal imgs =>
        (Normal tt, world_after l,
         events l ++ [EvRespond
                        (mkResponse 200
                           (JsonBody (JObj [("processedImages",
                                             JArr (JStr <$> imgs))])))])
    | Throw e =>
        (Normal tt, world_after l,
         events l ++ [EvConsoleError "Error processing images:" e;
                      EvRespond error_response])
    | Pending => (Pending, world_after l, events l)
    end.
Proof.
  unfold upload_handler, try_catch, mbind, M_bind.
  destruct (for_of (req_files req) (process_file backend) [] w)
    as [[[imgs|e|] w1] t1]; reflexivity.
Qed.

(** The handler answers at most once, and only in one of two ways. *)
Lemma upload_handler_responses backend req w :
  let r := upload_handler backend req w in
  (completion r = Pending /\ responses (events r) = [])
  \/ (completion r = Normal tt /\ responses (events r) = [error_response])
  \/ (completion r = Normal tt
      /\ responses (events r) = [ok_response (req_files req)]).
Proof.
  intros r. subst r. rewrite upload_handler_unfold.
  destruct (for_of_trace backend (req_files req) [] w) as [Ht Hv].
  cbv zeta.
  destruct (completion (for_of (req_files req) (process_file backend) [] w))
    as [imgs|e|] eqn:Hc; unfold completion, events; cbn [fst snd];
    fold (events (for_of (req_files req) (process_file backend) [] w)).
  - right; right. split; [reflexivity|].
    rewrite responses_app, (loop_trace_responses _ _ Ht).
    rewrite (Hv imgs eq_refl). reflexivity.
  - right; left. split; [reflexivity|].
    by rewrite responses_app, (loop_trace_responses _ _ Ht).
  - left. split; [reflexivity|]. exact (loop_trace_responses _ _ Ht).
Qed.

(** ** Paths *)

Lemma dirname_no_slash s : no_slash s = true -> dirname s = None.
Proof.
  induction s as [|c s IH]; [done|]. simpl.
  intros H. apply andb_prop in H as [Hc Hs]. rewrite (IH Hs).
  by destruct (Ascii.eqb c "/").
Qed.

Lemma no_slash_app s t :
  no_slash (s ++ t)%string = no_slash s && no_slash t.
Proof.
  induction s as [|c s IH]; [done|]. simpl. rewrite IH. by rewrite andb_assoc.
Qed.

Lemma dirname_under d s :
  no_slash s = true -> dirname (d ++ String "/" s)%string = Some d.
Proof.
  intros Hs. induction d as [|c d IH].
  - simpl. by rewrite (dirname_no_slash _ Hs).
  - simpl. by rewrite IH.
Qed.

Lemma processedImagePath_parent file f :
  no_slash (filename file) = true ->
  "processed" ∈ fs_dirs f ->
  parent_exists (processedImagePath file) f = true.
Proof.
  intros Hn Hd. unfold parent_exists, processedImagePath.
  change ("processed/" ++ filename file ++ ".png")%string
    with ("processed" ++ String "/" (filename file ++ ".png"))%string.
  rewrite dirname_under by (rewrite no_slash_app, Hn; reflexivity).
  by apply bool_decide_eq_true_2.
Qed.

(** ** The loop when nothing fails *)

Lemma always_succeeds_resolved backend history rq :
  always_succeeds backend ->
  exists r, axios_settle (post_config []) (backend history rq) = Resolved r.
Proof.
  intros H. destruct (H history rq) as (l & st & d & -> & Hlo & Hhi).
  exists (mkAxiosResponse st d).
  cbn [axios_settle]. unfold timeout_ms, post_config. cbn [cfg_timeout].
  apply Nat.leb_le in Hlo. apply Nat.ltb_lt in Hhi. by rewrite Hlo, Hhi.
Qed.

Lemma for_of_all_succeed backend files acc w :
  always_succeeds backend ->
  "processed" ∈ fs_dirs (fs w) ->
  stored (fs w) files ->
  completion (for_of files (process_file backend) acc w)
  = Normal (acc ++ (processedImagePath <$> files)).
Proof.
  intros Hb. revert acc w.
  induction files as [|file files IH]; intros acc w Hd [Hnd Hst].
  - simpl. by rewrite app_nil_r.
  - destruct (Hst file) as ([d Hfile] & Hn & Hout); [left|].
    destruct (always_succeeds_resolved backend (served w) (request_for file d) Hb)
      as [r Hr].
    simpl for_of.
    erewrite bind_normal
      by (apply (process_file_resolved backend file acc w d r);
          eauto using processedImagePath_parent).
    unfold completion at 1. cbn [fst].
    fold (completion
            (for_of files (process_file backend)
               (acc ++ [processedImagePath file])
               {| fs := {| fs_dirs := fs_dirs (fs w);
                           fs_files := delete (path file)
                                         (<[processedImagePath file:=data r]>
                                            (fs_files (fs w))) |};
                  served := served w ++ [request_for file d];
                  listening := listening w |})).
    rewrite IH.
    + by rewrite fmap_cons, <- app_assoc.
    + exact Hd.
    + rewrite fmap_cons in Hnd. apply NoDup_cons in Hnd as [Hnotin Hnd].
      split; [exact Hnd|]. intros x Hx.
      destruct (Hst x) as ([dx Hxf] & Hxn & Hxo); [by right|].
      split; [|by split].
      cbn [fs fs_files].
      assert (path x <> path file) as Hne.
      { intros E. apply Hnotin. rewrite <- E. by apply list_elem_of_fmap_2. }
      rewrite lookup_delete_ne by done.
      destruct (decide (processedImagePath file = path x)) as [E|E].
      * rewrite E, lookup_insert_eq. by eexists.
      * rewrite lookup_insert_ne by done. by eexists.
Qed.

(** ** C1 *)

(** C1 (as stated, refuted). Two files, the engine answers 500 to the
    second request: the handler's only response is the 500 text, which
    carries no entries, not a list of two outcomes. *)
Lemma upload_failed_item_leaves_no_entries :
  let req := mkRequest [Sample.cat; Sample.dog] [] in
  let r := upload_handler (Sample.engine_failing 1) req Sample.world in
  length (req_files req) = 2
  /\ completion r = Normal tt
  /\ responses (events r) = [error_response]
  /\ ~ exists resp entries,
         resp ∈ responses (events r)
         /\ outcome_entries resp = Some entries
         /\ length entries = 2.
Proof.
  cbv zeta. split; [reflexivity|]. split; [reflexivity|].
  assert (responses
            (events (upload_handler (Sample.engine_failing 1)
                       (mkRequest [Sample.cat; Sample.dog] []) Sample.world))
          = [error_response]) as E by reflexivity.
  split; [exact E|].
  intros (resp & entries & Hin & Hout & _). rewrite E in Hin.
  apply list_elem_of_singleton in Hin as ->. discriminate Hout.
Qed.

(** The loop completes exactly when every item of the batch goes
    through. *)
Lemma for_of_completes_iff backend files acc w :
  batch_succeeds backend files w = true
  <-> exists imgs,
        completion (for_of files (process_file backend) acc w) = Normal imgs.
Proof.
  revert acc w. induction files as [|file files IH]; intros acc w.
  - simpl. split; [intros _; by exists acc|done].
  - cbn [batch_succeeds]. simpl for_of.
    destruct (fs_files (fs w) !! path file) as [d|] eqn:Hd.
    2:{ rewrite (bind_throw _ _ _ _ _ _
                   (process_file_unreadable backend file acc w Hd)).
        split; [done|]. by intros [imgs Hc]. }
    destruct (axios_settle (post_config [])
                (backend (served w) (request_for file d))) as [r|e|] eqn:Hs.
    + destruct (negb (bool_decide (processedImagePath file ∈ fs_dirs (fs w)))
                && parent_exists (processedImagePath file) (fs w)) eqn:Hw.
      * apply andb_prop in Hw as [Hdir Hp].
        apply negb_true_iff, bool_decide_eq_false in Hdir.
        rewrite (bind_normal _ _ _ _ _ _
                   (process_file_resolved backend file acc w d r Hd Hs Hdir Hp)).
        rewrite completion_triple. cbn [andb].
        apply (IH (acc ++ [processedImagePath file])
                  (after_file file d (data r) w)).
      * destruct (process_file_unwritable backend file acc w d r Hd Hs Hw)
          as [e E].
        rewrite (bind_throw _ _ _ _ _ _ E).
        split; [done|]. by intros [imgs Hc].
    + rewrite (bind_throw _ _ _ _ _ _
                 (process_file_rejected backend file acc w d e Hd Hs)).
      split; [done|]. by intros [imgs Hc].
    + rewrite (bind_pending _ _ _ _ _
                 (process_file_pending backend file acc w d Hd Hs)).
      split; [done|]. by intros [imgs Hc].
Qed.

(** C1 (as amended). When every item's inference call, output write and
    input deletion succeed, the handler answers 200 with exactly one entry
    per submitted file, the output path of that file, in submission order.
    In every other case it sends no such list: either its only response
    is the 500 text [Error processing images], which carries no entry at
    all, or it is suspended at a call that never settles and has sent no
    response. *)
Theorem upload_results_in_order :
  forall (backend : Backend) (req : Request) (w : World),
    let r := upload_handler backend req w in
    (batch_succeeds backend (req_files req) w = true ->
     exists entries,
       completion r = Normal tt
       /\ responses (events r) = [ok_response (req_files req)]
       /\ outcome_entries (ok_response (req_files req)) = Some entries
       /\ length entries = length (req_files req)
       /\ forall i file, req_files req !! i = Some file ->
                         entries !! i = Some (JStr (processedImagePath file)))
    /\ (batch_succeeds backend (req_files req) w = false ->
        (completion r = Normal tt
         /\ responses (events r) = [error_response]
         /\ outcome_entries error_response = None)
        \/ (completion r = Pending /\ responses (events r) = [])).
Proof.
  intros backend req w r.
  pose proof (for_of_completes_iff backend (req_files req) [] w) as Hiff.
  destruct (for_of_trace backend (req_files req) [] w) as [Ht Hv].
  apply loop_trace_responses in Ht.
  subst r. rewrite upload_handler_unfold. cbv zeta.
  destruct (completion (for_of (req_files req) (process_file backend) [] w))
    as [imgs|e|] eqn:Hc;
    unfold completion, events; cbn [fst snd];
    fold (events (for_of (req_files req) (process_file backend) [] w));
    rewrite ?responses_app, Ht.
  - split.
    + intros _. exists (JStr <$> (processedImagePath <$> req_files req)).
      rewrite (Hv imgs eq_refl). repeat split.
      * by rewrite !length_fmap.
      * intros i file Hi. by rewrite !list_lookup_fmap, Hi.
    + intros Hf. rewrite (proj2 Hiff) in Hf by eauto. discriminate Hf.
  - split.
    + intros Hb. apply Hiff in Hb as [imgs Hb]. discriminate Hb.
    + intros _. left. done.
  - split.
    + intros Hb. apply Hiff in Hb as [imgs Hb]. discriminate Hb.
    + intros _. right. done.
Qed.

Lemma upload_results_in_order_witness :
  (batch_succeeds Sample.engine_ok [Sample.cat; Sample.dog] Sample.world = true
   /\ exists entries,
        completion (upload_handler Sample.engine_ok
                      (mkRequest [Sample.cat; Sample.dog] []) Sample.world)
        = Normal tt
        /\ responses (events (upload_handler Sample.engine_ok
                                (mkRequest [Sample.cat; Sample.dog] [])
                                Sample.world))
           = [ok_response [Sample.cat; Sample.dog]]
        /\ outcome_entries (ok_response [Sample.cat; Sample.dog]) = Some entries
        /\ length entries = 2
        /\ forall i file, [Sample.cat; Sample.dog] !! i = Some file ->
                          entries !! i = Some (JStr (processedImagePath file)))
  /\ (batch_succeeds (Sample.engine_failing 1) [Sample.cat; Sample.dog]
        Sample.world = false
      /\ ((completion (upload_handler (Sample.engine_failing 1)
                         (mkRequest [Sample.cat; Sample.dog] []) Sample.world)
           = Normal tt
           /\ responses (events (upload_handler (Sample.engine_failing 1)
                                   (mkRequest [Sample.cat; Sample.dog] [])
                                   Sample.world))
              = [error_response]
           /\ outcome_entries error_response = None)
          \/ (completion (upload_handler (Sample.engine_failing 1)
                            (mkRequest [Sample.cat; Sample.dog] [])
                            Sample.world)
              = Pending
              /\ responses (events (upload_handler (Sample.engine_failing 1)
                                      (mkRequest [Sample.cat; Sample.dog] [])
                                      Sample.world))
                 = []))).
Proof.
  assert (batch_succeeds Sample.engine_ok [Sample.cat; Sample.dog] Sample.world
          = true) as Hok by (vm_compute; reflexivity).
  assert (batch_succeeds (Sample.engine_failing 1) [Sample.cat; Sample.dog]
            Sample.world = false) as Hko by (vm_compute; reflexivity).
  split; (split; [assumption|]).
  - exact (proj1 (upload_results_in_order Sample.engine_ok
                    (mkRequest [Sample.cat; Sample.dog] []) Sample.world) Hok).
  - exact (proj2 (upload_results_in_order (Sample.engine_failing 1)
                    (mkRequest [Sample.cat; Sample.dog] []) Sample.world) Hko).
Defined.

(** Scenario A of the specification: three files, all served. *)
Example upload_three_files_all_served :
  let r := upload_handler Sample.engine_ok
             (mkRequest [Sample.cat; Sample.dog; Sample.owl] []) Sample.world in
  responses (events r)
  = [mkResponse 200
       (JsonBody
          (JObj [("processedImages",
                  JArr [JStr "processed/3f1a.png"; JStr "processed/9c2b.png";
                        JStr "processed/e07d.png"])]))]
  /\ fs_files (fs (world_after r))
     = <[ "processed/3f1a.png" := [x89; x50; x4e; x47] ]>
         (<[ "processed/9c2b.png" := [x89; x50; x4e; x47] ]>
            (<[ "processed/e07d.png" := [x89; x50; x4e; x47] ]> ∅)).
Proof. vm_compute. split; reflexivity. Qed.

(** ** C7 *)

Lemma upload_handler_sequential backend req w :
  sequential (events (upload_handler backend req w)).
Proof.
  rewrite upload_handler_unfold. cbv zeta.
  destruct (for_of_trace backend (req_files req) [] w) as [Ht _].
  apply loop_trace_sequential in Ht as [Hs _].
  destruct (completion (for_of (req_files req) (process_file backend) [] w));
    unfold events at 1; cbn [snd];
    try (apply sequential_app_neutral; [exact Hs|reflexivity]).
  exact Hs.
Qed.

(** C7. For a batch of K files and a concurrency bound C with K > C (and
    C at least 1), at every point of the handler's execution at most C
    inference calls are in flight: the loop awaits each call before it
    issues the next, so there is never more than one. *)
Theorem upload_in_flight_bounded :
  forall (backend : Backend) (req : Request) (w : World) (C : nat),
    1 <= C ->
    C < length (req_files req) ->
    forall p, p `prefix_of` events (upload_handler backend req w) ->
              in_flight p <= C.
Proof.
  intros backend req w C HC _ p Hp.
  pose proof (upload_handler_sequential backend req w p Hp). lia.
Qed.

Lemma upload_in_flight_bounded_witness :
  1 <= 2
  /\ 2 < length (req_files (mkRequest [Sample.cat; Sample.dog; Sample.owl] []))
  /\ in_flight
       [EvPost (request_for Sample.cat [x01]); EvSettled;
        EvWrite "processed/3f1a.png"; EvUnlink "uploads/3f1a";
        EvPost (request_for Sample.dog [x02])] <= 2.
Proof.
  split; [lia|]. split; [simpl; lia|].
  apply (upload_in_flight_bounded Sample.engine_ok
           (mkRequest [Sample.cat; Sample.dog; Sample.owl] []) Sample.world 2).
  - lia.
  - simpl; lia.
  - eexists. vm_compute. reflexivity.
Defined.

(** ** An item that stops the batch *)

Section Abort.

Variable backend : Backend.

(** The loop up to and including the item after [pre]. *)
Lemma for_of_after_prefix pre file post w imgs w1 t1 :
  for_of pre (process_file backend) [] w = (Normal imgs, w1, t1) ->
  for_of (pre ++ file :: post) (process_file backend) [] w
  = let it := process_file backend file imgs w1 in
    match completion it with
    | Normal imgs' =>
        let rest := for_of post (process_file backend) imgs' (world_after it) in
        (completion rest, world_after rest, t1 ++ events it ++ events rest)
    | Throw e => (Throw e, world_after it, t1 ++ events it)
    | Pending => (Pending, world_after it, t1 ++ events it)
    end.
Proof.
  intros Hpre. rewrite for_of_app. unfold mbind at 1. unfold M_bind.
  rewrite Hpre. simpl for_of. unfold mbind, M_bind. cbv zeta.
  destruct (process_file backend file imgs w1) as [[[imgs'|e|] w2] t2];
    unfold completion, world_after, events; cbn [fst snd]; try reflexivity.
  destruct (for_of post (process_file backend) imgs' w2) as [[c w3] t3].
  reflexivity.
Qed.



End Abort.

(** ** C2 *)




(** ** C6 *)




(** ** C3 and C9: the quality parameters *)

(** The requests of a pass over the files: in file order, one per file,
    up to the item where the pass stops. *)
Lemma for_of_posts backend files acc w :
  exists contents,
    length contents <= length files
    /\ posts (events (for_of files (process_file backend) acc w))
       = zip_with request_for files contents.
Proof.
  revert acc w. induction files as [|file files IH]; intros acc w.
  - exists []. split; [simpl; lia|reflexivity].
  - simpl for_of.
    destruct (process_file_cases backend file acc w)
      as [[_ E]|(d & _ & [E|[[e E]|[b E]]])].
    + rewrite (bind_throw _ _ _ _ _ _ E). exists []. split; [simpl; lia|reflexivity].
    + rewrite (bind_pending _ _ _ _ _ E). exists [d]. split; [simpl; lia|].
      simpl. by destruct files.
    + rewrite (bind_throw _ _ _ _ _ _ E). exists [d]. split; [simpl; lia|].
      simpl. by destruct files.
    + rewrite (bind_normal _ _ _ _ _ _ E).
      match goal with
      | |- context [for_of files _ ?a ?w'] => destruct (IH a w') as (ds & Hl & Hp)
      end.
      exists (d :: ds). split; [simpl; lia|].
      unfold events at 1. cbn [snd]. simpl. by rewrite Hp.
Qed.

Lemma upload_handler_posts backend req w :
  posts (events (upload_handler backend req w))
  = posts (events (for_of (req_files req) (process_file backend) [] w)).
Proof.
  rewrite upload_handler_unfold. cbv zeta.
  destruct (completion (for_of (req_files req) (process_file backend) [] w));
    unfold events at 1; cbn [snd]; rewrite ?posts_app; simpl;
    by rewrite ?app_nil_r.
Qed.

(** C3 (as stated, refuted). One file submitted with
    [alpha_threshold = -5]: the batch is not rejected, the file is sent
    to the engine and the batch is answered with its output. *)
Lemma upload_negative_threshold_processed :
  let r := upload_handler Sample.engine_ok
             (mkRequest [Sample.cat] [("alpha_threshold", "-5")])
             Sample.world in
  posts (events r) = [request_for Sample.cat [x01]]
  /\ responses (events r) = [ok_response [Sample.cat]].
Proof. vm_compute. split; reflexivity. Qed.

(** C3 (as amended). The handler does not validate, or read, the quality
    parameters: a batch is handled the same whatever parameters it is
    submitted with, in range or not, and as soon as the first file of a
    batch can be read its inference call is made. *)
Theorem upload_ignores_quality_parameters :
  forall (backend : Backend) (files : list File)
         (q q' : list (string * string)) (w : World),
    upload_handler backend (mkRequest files q) w
    = upload_handler backend (mkRequest files q') w
    /\ forall file rest d,
         files = file :: rest ->
         fs_files (fs w) !! path file = Some d ->
         exists more,
           posts (events (upload_handler backend (mkRequest files q) w))
           = request_for file d :: more.
Proof.
  intros backend files q q' w. split; [reflexivity|].
  intros file rest d -> Hd.
  rewrite upload_handler_posts. cbn [req_files]. simpl for_of.
  destruct (process_file_cases backend file [] w)
    as [[Hn _]|(d' & Hd' & [E|[[e E]|[b E]]])];
    [congruence|..];
    assert (d' = d) as -> by congruence.
  - rewrite (bind_pending _ _ _ _ _ E). by exists [].
  - rewrite (bind_throw _ _ _ _ _ _ E). by exists [].
  - rewrite (bind_normal _ _ _ _ _ _ E). unfold events at 1. cbn [snd].
    simpl. eauto.
Qed.

Lemma upload_ignores_quality_parameters_witness :
  exists more,
    posts (events (upload_handler Sample.engine_down
                     (mkRequest [Sample.cat; Sample.dog]
                                [("trimap_prob_threshold", "999")])
                     Sample.world))
    = request_for Sample.cat [x01] :: more.
Proof.
  apply (proj2 (upload_ignores_quality_parameters Sample.engine_down
                  [Sample.cat; Sample.dog]
                  [("trimap_prob_threshold", "999")] [] Sample.world)
           Sample.cat [Sample.dog] [x01]); reflexivity.
Defined.

(** C9. Two submissions with the same files and arbitrary, different
    quality parameters make the handler issue the same requests to the
    inference engine.  Each request is built from one file alone, the
    bytes read from its temporary path, in file order. *)
Theorem upload_requests_depend_on_files_only :
  forall (backend : Backend) (req1 req2 : Request) (w : World),
    req_files req1 = req_files req2 ->
    posts (events (upload_handler backend req1 w))
    = posts (events (upload_handler backend req2 w))
    /\ exists contents,
         length contents <= length (req_files req1)
         /\ posts (events (upload_handler backend req1 w))
            = zip_with request_for (req_files req1) contents.
Proof.
  intros backend req1 req2 w Hfiles. split.
  - by rewrite !upload_handler_posts, Hfiles.
  - rewrite upload_handler_posts. apply for_of_posts.
Qed.

Lemma upload_requests_depend_on_files_only_witness :
  posts (events (upload_handler Sample.engine_ok
                   (mkRequest [Sample.cat; Sample.dog]
                      [("object_type", "object"); ("feather_radius", "0.5")])
                   Sample.world))
  = posts (events (upload_handler Sample.engine_ok
                     (mkRequest [Sample.cat; Sample.dog]
                        [("object_type", "hairs-like"); ("alpha_threshold", "-5")])
                     Sample.world)).
Proof.
  exact (proj1 (upload_requests_depend_on_files_only Sample.engine_ok
                  (mkRequest [Sample.cat; Sample.dog]
                     [("object_type", "object"); ("feather_radius", "0.5")])
                  (mkRequest [Sample.cat; Sample.dog]
                     [("object_type", "hairs-like"); ("alpha_threshold", "-5")])
                  Sample.world eq_refl)).
Defined.

(** ** C4 and C5: where the handler misses its contract *)

(** C4 (the code breaks it). Three files, the engine answers 500 to the
    second request.  The first file's temporary input is unlinked once;
    those of the failing file and of the file after it are never
    unlinked and are still on disk when the handler has answered. *)
Theorem upload_failure_leaks_inputs :
  let r := upload_handler (Sample.engine_failing 1)
             (mkRequest [Sample.cat; Sample.dog; Sample.owl] [])
             Sample.world in
  completion r = Normal tt
  /\ responses (events r) = [error_response]
  /\ unlinks (path Sample.cat) (events r) = 1
  /\ unlinks (path Sample.dog) (events r) = 0
  /\ unlinks (path Sample.owl) (events r) = 0
  /\ fs_files (fs (world_after r)) !! path Sample.cat = None
  /\ fs_files (fs (world_after r)) !! path Sample.dog = Some [x02]
  /\ fs_files (fs (world_after r)) !! path Sample.owl = Some [x03].
Proof. vm_compute. repeat split. Qed.

(** C5 (the code breaks it). One file, served by the engine.  The body
    of the 200 response is an object whose only field, [processedImages],
    holds the bare output path; it has no [results] field, so the client
    reads an empty list, and the entry has none of the fields [ok],
    [url], [error], [name], [ms]. *)
Theorem upload_response_lacks_results :
  let r := upload_handler Sample.engine_ok (mkRequest [Sample.cat] [])
             Sample.world in
  let payload := JObj [("processedImages", JArr [JStr "processed/3f1a.png"])] in
  responses (events r) = [mkResponse 200 (JsonBody payload)]
  /\ Client.payload_results payload = JArr []
  /\ Client.has_outcome_fields (JStr "processed/3f1a.png") = false.
Proof. vm_compute. repeat split. Qed.

(** ** C8: start-up *)

Lemma ensure_dir_result p w :
  dirname p = None ->
  ensure_dir p w
  = if path_exists p (fs w) then (Normal tt, w, [])
    else (Normal tt, add_dir p w, [EvMkdir p]).
Proof.
  intros Hp. unfold ensure_dir, mbind, M_bind, existsSync, mkdirSync.
  destruct (path_exists p (fs w)) eqn:He; cbn [negb].
  - reflexivity.
  - rewrite He. unfold parent_exists. rewrite Hp. reflexivity.
Qed.

Lemma path_exists_add_dir q p w :
  path_exists q (fs (add_dir p w))
  = (bool_decide (q = p) || path_exists q (fs w)).
Proof.
  unfold path_exists, add_dir, set_fs. cbn [fs fs_dirs fs_files].
  rewrite orb_assoc. f_equal.
  destruct (decide (q = p)) as [->|Hne].
  - rewrite (bool_decide_eq_true_2 (p = p)) by reflexivity. cbn [orb].
    apply bool_decide_eq_true_2. set_solver.
  - rewrite (bool_decide_eq_false_2 (q = p)) by exact Hne. cbn [orb].
    apply bool_decide_ext. set_solver.
Qed.

Lemma ensure_dir_exists p w :
  dirname p = None ->
  completion (ensure_dir p w) = Normal tt
  /\ path_exists p (fs (world_after (ensure_dir p w))) = true
  /\ listening (world_after (ensure_dir p w)) = listening w
  /\ (forall q, path_exists q (fs w) = true ->
                path_exists q (fs (world_after (ensure_dir p w))) = true).
Proof.
  intros Hp. rewrite (ensure_dir_result p w Hp).
  destruct (path_exists p (fs w)) eqn:He;
    unfold completion, world_after; cbn [fst snd].
  - auto.
  - split; [reflexivity|]. split; [|split; [reflexivity|]].
    + rewrite path_exists_add_dir.
      by rewrite bool_decide_eq_true_2.
    + intros q Hq. rewrite path_exists_add_dir, Hq. apply orb_true_r.
Qed.

Lemma startup_unchanged w :
  path_exists "uploads" (fs w) = true ->
  path_exists "processed" (fs w) = true ->
  startup w = (Normal tt, w, []).
Proof.
  intros Hu Hp. unfold startup, mbind, M_bind.
  rewrite (ensure_dir_result "uploads" w eq_refl), Hu.
  rewrite (ensure_dir_result "processed" w eq_refl), Hp.
  reflexivity.
Qed.

(** C8. The directory checks run to completion before [listen] is
    called, so the server accepts no request before them, and they leave
    both [uploads] and [processed] present.  They are idempotent: a
    second run changes nothing, and on a disk that already has both the
    first run changes nothing either. *)
Theorem startup_idempotent_before_listen :
  forall (env_PORT : option string) (w : World),
    let r := startup w in
    let w1 := world_after r in
    completion r = Normal tt
    /\ path_exists "uploads" (fs w1) = true
    /\ path_exists "processed" (fs w1) = true
    /\ listening w1 = listening w
    /\ main env_PORT w
       = (Normal tt,
          {| fs := fs w1; served := served w1; listening := true |},
          events r ++ [EvListen (PORT env_PORT)])
    /\ startup w1 = (Normal tt, w1, [])
    /\ (path_exists "uploads" (fs w) = true ->
        path_exists "processed" (fs w) = true ->
        r = (Normal tt, w, [])).
Proof.
  intros env_PORT w r w1.
  destruct (ensure_dir_exists "uploads" w eq_refl) as (Hc1 & He1 & Hl1 & _).
  destruct (ensure_dir "uploads" w) as [[c1 wa] ta] eqn:E1.
  unfold completion, world_after in Hc1, He1, Hl1. cbn [fst snd] in Hc1, He1, Hl1.
  subst c1.
  destruct (ensure_dir_exists "processed" wa eq_refl) as (Hc2 & He2 & Hl2 & Hk2).
  destruct (ensure_dir "processed" wa) as [[c2 wb] tb] eqn:E2.
  unfold completion, world_after in Hc2, He2, Hl2, Hk2.
  cbn [fst snd] in Hc2, He2, Hl2, Hk2. subst c2.
  assert (r = (Normal tt, wb, ta ++ tb)) as Hr.
  { subst r. unfold startup, mbind, M_bind. rewrite E1, E2. reflexivity. }
  assert (w1 = wb) as Hw1 by (subst w1; rewrite Hr; reflexivity).
  rewrite Hw1.
  split; [by rewrite Hr|]. split; [by apply Hk2|]. split; [exact He2|].
  split; [congruence|]. split.
  { unfold main, mbind, M_bind. fold r. rewrite Hr. reflexivity. }
  split.
  { apply startup_unchanged; [by apply Hk2|exact He2]. }
  intros Hu Hp. subst r. by apply startup_unchanged.
Qed.

Lemma startup_idempotent_before_listen_witness :
  path_exists "uploads" (fs Sample.world) = true
  /\ path_exists "processed" (fs Sample.world) = true
  /\ startup Sample.world = (Normal tt, Sample.world, []).
Proof.
  split; [reflexivity|]. split; [reflexivity|].
  apply (startup_idempotent_before_listen None Sample.world); reflexivity.
Defined.

(** On an empty disk the checks create both directories, in source
    order, and only then does the server listen. *)
Example main_on_fresh_disk :
  let r := main None {| fs := Sample.fresh_disk; served := []; listening := false |} in
  events r = [EvMkdir "uploads"; EvMkdir "processed"; EvListen (PortNum 3000)]
  /\ listening (world_after r) = true
  /\ fs_dirs (fs (world_after r)) = {[ "processed" ]} ∪ ({[ "uploads" ]} ∪ ∅).
Proof. vm_compute. repeat split. Qed.

(* ===================================================================== *)
(** * Part III. Further properties of the gateway                         *)
(* ===================================================================== *)

(** ** What one pass over the files leaves alone *)

Section Frame.

Variable backend : Backend.

Lemma unlinks_app p t1 t2 : unlinks p (t1 ++ t2) = unlinks p t1 + unlinks p t2.
Proof. unfold unlinks. by rewrite List.filter_app, length_app. Qed.

Lemma is_unlink_true p q : is_unlink p (EvUnlink q) = true <-> q = p.
Proof. simpl. apply String.eqb_eq. Qed.

Lemma unlinks_iteration p rq out tmp :
  unlinks p [EvPost rq; EvSettled; EvWrite out; EvUnlink tmp]
  = if decide (tmp = p) then 1 else 0.
Proof.
  unfold unlinks. simpl.
  destruct (decide (tmp = p)) as [->|Hne].
  - by rewrite String.eqb_refl.
  - apply String.eqb_neq in Hne. by rewrite Hne.
Qed.

(** Directories, the listening flag and every file that is neither a
    temporary input nor an output of the batch are left as they were;
    the history of calls grows by the requests of the pass. *)
Lemma for_of_frame files acc w :
  let r := for_of files (process_file backend) acc w in
  fs_dirs (fs (world_after r)) = fs_dirs (fs w)
  /\ listening (world_after r) = listening w
  /\ served (world_after r) = served w ++ posts (events r)
  /\ forall p, p ∉ path <$> files ->
               p ∉ processedImagePath <$> files ->
               fs_files (fs (world_after r)) !! p = fs_files (fs w) !! p.
Proof.
  revert acc w. induction files as [|file files IH]; intros acc w r; subst r.
  - simpl. by rewrite app_nil_r.
  - simpl for_of.
    destruct (process_file_cases backend file acc w)
      as [[_ E]|(d & _ & [E|[[e E]|[b E]]])].
    + rewrite (bind_throw _ _ _ _ _ _ E). simpl. by rewrite app_nil_r.
    + rewrite (bind_pending _ _ _ _ _ E). simpl. done.
    + rewrite (bind_throw _ _ _ _ _ _ E). simpl. done.
    + rewrite (bind_normal _ _ _ _ _ _ E).
      match goal with
      | |- context [for_of files _ ?a ?w'] =>
          destruct (IH a w') as (Hd & Hl & Hs & Hf)
      end.
      unfold world_after, events in *. cbn [fst snd] in *.
      cbn [fs fs_dirs fs_files served listening] in *.
      split; [exact Hd|]. split; [exact Hl|]. split.
      * rewrite Hs. simpl. by rewrite <- app_assoc.
      * intros p Hp Ho. rewrite !fmap_cons in *.
        apply not_elem_of_cons in Hp as [Hp1 Hp2].
        apply not_elem_of_cons in Ho as [Ho1 Ho2].
        rewrite (Hf p Hp2 Ho2).
        rewrite lookup_delete_ne by done. by rewrite lookup_insert_ne.
Qed.

(** A path that is no temporary input of the batch is never unlinked,
    and a file there stays. *)
Lemma for_of_unlinks_other files acc w p :
  p ∉ path <$> files ->
  let r := for_of files (process_file backend) acc w in
  unlinks p (events r) = 0
  /\ (is_Some (fs_files (fs w) !! p) ->
      is_Some (fs_files (fs (world_after r)) !! p)).
Proof.
  revert acc w. induction files as [|file files IH]; intros acc w Hp r; subst r.
  - simpl. done.
  - rewrite fmap_cons in Hp. apply not_elem_of_cons in Hp as [Hp1 Hp2].
    simpl for_of.
    destruct (process_file_cases backend file acc w)
      as [[_ E]|(d & _ & [E|[[e E]|[b E]]])].
    + rewrite (bind_throw _ _ _ _ _ _ E). simpl. done.
    + rewrite (bind_pending _ _ _ _ _ E). simpl. done.
    + rewrite (bind_throw _ _ _ _ _ _ E). simpl. done.
    + rewrite (bind_normal _ _ _ _ _ _ E).
      match goal with
      | |- context [for_of files _ ?a ?w'] =>
          destruct (IH a w' Hp2) as (Hu & Hk)
      end.
      unfold world_after, events in *. cbn [fst snd] in *.
      split.
      * rewrite unlinks_app, unlinks_iteration, Hu.
        by rewrite decide_False by done.
      * intros Hsome. apply Hk. cbn [fs fs_files].
        rewrite lookup_delete_ne by done.
        destruct (decide (processedImagePath file = p)) as [->|Hne].
        -- rewrite lookup_insert_eq. by eexists.
        -- by rewrite lookup_insert_ne.
Qed.

(** The number of calls left in flight when the pass ends: one exactly
    when it is suspended at a call. *)
Lemma for_of_in_flight files acc w :
  let r := for_of files (process_file backend) acc w in
  in_flight (events r)
  = match completion r with Pending => 1 | _ => 0 end.
Proof.
  revert acc w. induction files as [|file files IH]; intros acc w r; subst r.
  - reflexivity.
  - simpl for_of.
    destruct (process_file_cases backend file acc w)
      as [[_ E]|(d & _ & [E|[[e E]|[b E]]])].
    + by rewrite (bind_throw _ _ _ _ _ _ E).
    + by rewrite (bind_pending _ _ _ _ _ E).
    + by rewrite (bind_throw _ _ _ _ _ _ E).
    + rewrite (bind_normal _ _ _ _ _ _ E).
      match goal with
      | |- context [for_of files _ ?a ?w'] => pose proof (IH a w') as IH'
      end.
      unfold completion, events in *. cbn [fst snd] in *.
      rewrite in_flight_app. exact IH'.
Qed.

End Frame.

(** ** The handler, from its loop *)

Lemma upload_handler_world backend req w :
  world_after (upload_handler backend req w)
  = world_after (for_of (req_files req) (process_file backend) [] w).
Proof.
  rewrite upload_handler_unfold. cbv zeta.
  by destruct (completion (for_of (req_files req) (process_file backend) [] w)).
Qed.

Lemma upload_handler_unlinks backend req w p :
  unlinks p (events (upload_handler backend req w))
  = unlinks p (events (for_of (req_files req) (process_file backend) [] w)).
Proof.
  rewrite upload_handler_unfold. cbv zeta.
  destruct (completion (for_of (req_files req) (process_file backend) [] w));
    unfold events at 1; cbn [snd]; rewrite ?unlinks_app; unfold unlinks; simpl; lia.
Qed.

Lemma upload_handler_completion backend req w :
  completion (upload_handler backend req w)
  = match completion (for_of (req_files req) (process_file backend) [] w) with
    | Pending => Pending
    | _ => Normal tt
    end.
Proof.
  rewrite upload_handler_unfold. cbv zeta.
  by destruct (completion (for_of (req_files req) (process_file backend) [] w)).
Qed.

Lemma upload_handler_in_flight backend req w :
  in_flight (events (upload_handler backend req w))
  = in_flight (events (for_of (req_files req) (process_file backend) [] w)).
Proof.
  rewrite upload_handler_unfold. cbv zeta.
  destruct (completion (for_of (req_files req) (process_file backend) [] w));
    unfold events at 1; cbn [snd]; rewrite ?in_flight_app; reflexivity.
Qed.

(** The response sent when the loop completes. *)
Lemma upload_all_succeed_response backend req w :
  always_succeeds backend ->
  "processed" ∈ fs_dirs (fs w) ->
  stored (fs w) (req_files req) ->
  completion (upload_handler backend req w) = Normal tt
  /\ responses (events (upload_handler backend req w))
     = [ok_response (req_files req)].
Proof.
  intros Hb Hd Hs.
  pose proof (for_of_all_succeed backend (req_files req) [] w Hb Hd Hs) as Hc.
  rewrite upload_handler_unfold. cbv zeta. rewrite Hc.
  unfold completion, events. cbn [fst snd]. split; [reflexivity|].
  destruct (for_of_trace backend (req_files req) [] w) as [Ht _].
  fold (events (for_of (req_files req) (process_file backend) [] w)).
  by rewrite responses_app, (loop_trace_responses _ _ Ht).
Qed.

(** ** X1: what a 200 answer means *)




(** Redirects are followed inside the call: against an engine that
    redirects every request before it serves it, two files are answered
    200 after two calls; against one that redirects for ever the first
    call is rejected and the batch answered 500. *)
Example upload_follows_redirects :
  let req := mkRequest [Sample.cat; Sample.dog] [] in
  let moved := upload_handler Sample.engine_moved req Sample.world in
  let looping := upload_handler Sample.engine_looping req Sample.world in
  responses (events moved) = [ok_response [Sample.cat; Sample.dog]]
  /\ posts (events moved)
     = [request_for Sample.cat [x01]; request_for Sample.dog [x02]]
  /\ events looping
     = [EvPost (request_for Sample.cat [x01]); EvSettled;
        EvConsoleError "Error processing images:" ERR_FR_TOO_MANY_REDIRECTS;
        EvRespond error_response].
Proof. vm_compute. repeat split. Qed.

(** ** X2: what the handler leaves alone *)

(** X2. Whatever happens to the batch, the handler creates and removes
    no directory, does not change whether the server listens, and leaves
    every file that is neither a temporary input nor an output path of
    the batch exactly as it was. *)
Theorem upload_handler_frame :
  forall (backend : Backend) (req : Request) (w : World),
    let r := upload_handler backend req w in
    fs_dirs (fs (world_after r)) = fs_dirs (fs w)
    /\ listening (world_after r) = listening w
    /\ forall p, p ∉ path <$> req_files req ->
                 p ∉ processedImagePath <$> req_files req ->
                 fs_files (fs (world_after r)) !! p = fs_files (fs w) !! p.
Proof.
  intros backend req w r. subst r.
  rewrite upload_handler_world.
  destruct (for_of_frame backend (req_files req) [] w) as (Hd & Hl & _ & Hf).
  done.
Qed.

Lemma upload_handler_frame_witness :
  ("uploads/e07d" ∉ path <$> [Sample.cat; Sample.dog])
  /\ ("uploads/e07d" ∉ processedImagePath <$> [Sample.cat; Sample.dog])
  /\ fs_files (fs (world_after
                     (upload_handler (Sample.engine_failing 1)
                        (mkRequest [Sample.cat; Sample.dog] []) Sample.world)))
       !! "uploads/e07d"
     = fs_files (fs Sample.world) !! "uploads/e07d".
Proof.
  assert ("uploads/e07d" ∉ path <$> [Sample.cat; Sample.dog]) as H1.
  { apply (bool_decide_unpack _). vm_compute. exact I. }
  assert ("uploads/e07d" ∉ processedImagePath <$> [Sample.cat; Sample.dog]) as H2.
  { apply (bool_decide_unpack _). vm_compute. exact I. }
  split; [exact H1|]. split; [exact H2|].
  exact (proj2 (proj2
           (upload_handler_frame (Sample.engine_failing 1)
              (mkRequest [Sample.cat; Sample.dog] []) Sample.world))
           "uploads/e07d" H1 H2).
Defined.

(** ** X3: one answer *)

(** X3. No error escapes the handler and it never answers twice: it
    either completes, having sent exactly one response as its last step
    with no inference call left in flight, or it stays suspended with
    exactly one call in flight and no response sent. *)
Theorem upload_answers_once :
  forall (backend : Backend) (req : Request) (w : World),
    let r := upload_handler backend req w in
    (completion r = Normal tt
     /\ in_flight (events r) = 0
     /\ exists t resp, events r = t ++ [EvRespond resp]
                       /\ responses t = [])
    \/ (completion r = Pending
        /\ in_flight (events r) = 1
        /\ responses (events r) = []).
Proof.
  intros backend req w r. subst r.
  rewrite upload_handler_in_flight.
  pose proof (for_of_in_flight backend (req_files req) [] w) as Hfl.
  cbv zeta in Hfl. rewrite Hfl.
  destruct (for_of_trace backend (req_files req) [] w) as [Ht _].
  apply loop_trace_responses in Ht.
  rewrite upload_handler_unfold. cbv zeta.
  destruct (completion (for_of (req_files req) (process_file backend) [] w))
    as [imgs|e|]; unfold completion, events; cbn [fst snd];
    fold (events (for_of (req_files req) (process_file backend) [] w)).
  - left. repeat split. eexists _, _. split; [reflexivity|exact Ht].
  - left. repeat split.
    exists (events (for_of (req_files req) (process_file backend) [] w)
            ++ [EvConsoleError "Error processing images:" e]), error_response.
    split; [by rewrite <- app_assoc|].
    by rewrite responses_app, Ht.
  - right. done.
Qed.

(** ** X4, X5: an input that cannot be read, an output that cannot be written *)

Section Obstacles.

Variable backend : Backend.

(** The call is served but there is no directory to write the output
    to. *)
Lemma process_file_no_directory file acc w d r :
  fs_files (fs w) !! path file = Some d ->
  axios_settle (post_config []) (backend (served w) (request_for file d))
  = Resolved r ->
  processedImagePath file ∉ fs_dirs (fs w) ->
  parent_exists (processedImagePath file) (fs w) = false ->
  process_file backend file acc w
  = (Throw (if through_file (processedImagePath file) (fs w)
            then ENOTDIR (processedImagePath file)
            else ENOENT (processedImagePath file)),
     record_request w (request_for file d),
     [EvPost (request_for file d); EvSettled]).
Proof.
  intros H Hs Hd Hp. unfold process_file.
  erewrite bind_normal; cycle 1.
  { unfold axios_post. rewrite read_parts_file, H.
    change (mkInferenceRequest _ _ _) with (request_for file d).
    change (post_config _) with (post_config []).
    rewrite Hs. reflexivity. }
  fold (processedImagePath file).
  unfold mbind, M_bind, writeFileSync, completion, world_after, events.
  cbn [fs record_request].
  rewrite bool_decide_eq_false_2 by exact Hd. rewrite Hp. reflexivity.
Qed.

Lemma upload_item_throws pre file post q w imgs w1 t1 e w2 t2 :
  for_of pre (process_file backend) [] w = (Normal imgs, w1, t1) ->
  process_file backend file imgs w1 = (Throw e, w2, t2) ->
  upload_handler backend (mkRequest (pre ++ file :: post) q) w
  = (Normal tt, w2,
     t1 ++ t2 ++ [EvConsoleError "Error processing images:" e;
                  EvRespond error_response]).
Proof.
  intros Hpre Hit. rewrite upload_handler_unfold. cbn [req_files]. cbv zeta.
  rewrite (for_of_after_prefix _ _ _ _ _ _ _ _ Hpre). cbv zeta.
  rewrite Hit. unfold completion, world_after, events. cbn [fst snd].
  by rewrite <- app_assoc.
Qed.

End Obstacles.

(** X4. When the temporary file of an item is not on disk once the items
    before it have been processed, its call is rejected with ENOENT
    before a request is delivered to the engine: the handler logs the
    error and answers 500, leaving the world as the earlier items left
    it.  A batch that lists the same temporary file twice ends this way
    at the second occurrence. *)
Theorem upload_unreadable_input_aborts :
  forall (backend : Backend) (pre post : list File) (file : File)
         (q : list (string * string)) (w w1 : World)
         (imgs : list string) (t1 : list Event),
    for_of pre (process_file backend) [] w = (Normal imgs, w1, t1) ->
    fs_files (fs w1) !! path file = None ->
    upload_handler backend (mkRequest (pre ++ file :: post) q) w
    = (Normal tt, w1,
       t1 ++ [EvConsoleError "Error processing images:" (ENOENT (path file));
              EvRespond error_response]).
Proof.
  intros backend pre post file q w w1 imgs t1 Hpre Hnone.
  rewrite (upload_item_throws backend pre file post q w imgs w1 t1
             (ENOENT (path file)) w1 []); [reflexivity|exact Hpre|].
  by apply process_file_unreadable.
Qed.

Lemma upload_unreadable_input_aborts_witness :
  let w1 := world_after (for_of [Sample.cat] (process_file Sample.engine_ok)
                           [] Sample.world) in
  fs_files (fs w1) !! path Sample.cat = None
  /\ upload_handler Sample.engine_ok
       (mkRequest ([Sample.cat] ++ Sample.cat :: [Sample.dog]) []) Sample.world
     = (Normal tt, w1,
        [EvPost (request_for Sample.cat [x01]); EvSettled;
         EvWrite "processed/3f1a.png"; EvUnlink "uploads/3f1a"]
        ++ [EvConsoleError "Error processing images:" (ENOENT "uploads/3f1a");
            EvRespond error_response]).
Proof.
  split; [reflexivity|].
  apply (upload_unreadable_input_aborts Sample.engine_ok
           [Sample.cat] [Sample.dog] Sample.cat [] Sample.world _
           ["processed/3f1a.png"]);
    reflexivity.
Defined.

Lemma ancestors_no_slash s : no_slash s = true -> ancestors s = [].
Proof.
  induction s as [|c s IH]; [done|]. simpl.
  intros H. apply andb_prop in H as [Hc Hs]. rewrite (IH Hs).
  by destruct (Ascii.eqb c "/").
Qed.

Lemma ancestors_under d s :
  no_slash d = true -> no_slash s = true ->
  ancestors (d ++ String "/" s)%string = [d].
Proof.
  intros Hd Hs. induction d as [|c d IH].
  - simpl. by rewrite (ancestors_no_slash _ Hs).
  - simpl in Hd. apply andb_prop in Hd as [Hc Hd]. simpl.
    rewrite (IH Hd). by destruct (Ascii.eqb c "/").
Qed.

(** The only directory an output path goes through is [processed]. *)
Lemma processedImagePath_through_file file f :
  no_slash (filename file) = true ->
  through_file (processedImagePath file) f
  = bool_decide (is_Some (fs_files f !! "processed")).
Proof.
  intros Hn. unfold through_file, processedImagePath.
  change ("processed/" ++ filename file ++ ".png")%string
    with ("processed" ++ String "/" (filename file ++ ".png"))%string.
  rewrite ancestors_under;
    [|reflexivity|by rewrite no_slash_app, Hn].
  simpl. apply orb_false_r.
Qed.

(** X5. When there is no [processed] directory, an item whose inference
    call is served still fails: the call has been made, the write throws
    (ENOENT when nothing is at [processed], ENOTDIR when a regular file
    is), nothing is written or unlinked for the item, and the handler
    answers 500. *)
Theorem upload_missing_directory_aborts :
  forall (backend : Backend) (pre post : list File) (file : File)
         (q : list (string * string)) (w w1 : World)
         (imgs : list string) (t1 : list Event) (d : list byte)
         (latency st : nat) (body : list byte),
    for_of pre (process_file backend) [] w = (Normal imgs, w1, t1) ->
    fs_files (fs w1) !! path file = Some d ->
    backend (served w1) (request_for file d) = Responds latency st body ->
    200 <= st < 300 ->
    no_slash (filename file) = true ->
    "processed" ∉ fs_dirs (fs w1) ->
    processedImagePath file ∉ fs_dirs (fs w1) ->
    upload_handler backend (mkRequest (pre ++ file :: post) q) w
    = (Normal tt, record_request w1 (request_for file d),
       t1 ++ [EvPost (request_for file d); EvSettled;
              EvConsoleError "Error processing images:"
                (match fs_files (fs w1) !! "processed" with
                 | None => ENOENT (processedImagePath file)
                 | Some _ => ENOTDIR (processedImagePath file)
                 end);
              EvRespond error_response]).
Proof.
  intros backend pre post file q w w1 imgs t1 d latency st body
         Hpre Hd Hb [Hlo Hhi] Hn Hproc Hout.
  rewrite (upload_item_throws backend pre file post q w imgs w1 t1
             (match fs_files (fs w1) !! "processed" with
              | None => ENOENT (processedImagePath file)
              | Some _ => ENOTDIR (processedImagePath file)
              end)
             (record_request w1 (request_for file d))
             [EvPost (request_for file d); EvSettled]);
    [reflexivity|exact Hpre|].
  rewrite (process_file_no_directory backend file imgs w1 d
             (mkAxiosResponse st body)); try done.
  - rewrite (processedImagePath_through_file file (fs w1) Hn).
    by destruct (fs_files (fs w1) !! "processed").
  - rewrite Hb. cbn [axios_settle]. unfold timeout_ms, post_config.
    cbn [cfg_timeout].
    apply Nat.leb_le in Hlo. apply Nat.ltb_lt in Hhi. by rewrite Hlo, Hhi.
  - unfold parent_exists, processedImagePath.
    change ("processed/" ++ filename file ++ ".png")%string
      with ("processed" ++ String "/" (filename file ++ ".png"))%string.
    rewrite dirname_under by (rewrite no_slash_app, Hn; reflexivity).
    by apply bool_decide_eq_false_2.
Qed.

Lemma upload_missing_directory_aborts_witness :
  upload_handler Sample.engine_ok
    (mkRequest ([] ++ Sample.cat :: [Sample.dog]) []) Sample.unprepared
  = (Normal tt,
     record_request Sample.unprepared (request_for Sample.cat [x01]),
     [] ++ [EvPost (request_for Sample.cat [x01]); EvSettled;
            EvConsoleError "Error processing images:"
              (ENOENT (processedImagePath Sample.cat));
            EvRespond error_response])
  /\ upload_handler Sample.engine_ok
       (mkRequest ([] ++ Sample.cat :: [Sample.dog]) []) Sample.blocked
     = (Normal tt,
        record_request Sample.blocked (request_for Sample.cat [x01]),
        [] ++ [EvPost (request_for Sample.cat [x01]); EvSettled;
               EvConsoleError "Error processing images:"
                 (ENOTDIR (processedImagePath Sample.cat));
               EvRespond error_response]).
Proof.
  split.
  - apply (upload_missing_directory_aborts Sample.engine_ok
             [] [Sample.dog] Sample.cat [] Sample.unprepared Sample.unprepared
             [] [] [x01] 40 200 [x89; x50; x4e; x47]).
    + reflexivity.
    + reflexivity.
    + reflexivity.
    + lia.
    + reflexivity.
    + apply (bool_decide_unpack _). vm_compute. exact I.
    + apply (bool_decide_unpack _). vm_compute. exact I.
  - apply (upload_missing_directory_aborts Sample.engine_ok
             [] [Sample.dog] Sample.cat [] Sample.blocked Sample.blocked
             [] [] [x01] 40 200 [x89; x50; x4e; x47]).
    + reflexivity.
    + reflexivity.
    + reflexivity.
    + lia.
    + reflexivity.
    + apply (bool_decide_unpack _). vm_compute. exact I.
    + apply (bool_decide_unpack _). vm_compute. exact I.
Defined.

(** ** X6, X7: releasing the temporary inputs *)

Section Release.

Variable backend : Backend.

Lemma for_of_unlinks_at_most_once files acc w p :
  NoDup (path <$> files) ->
  unlinks p (events (for_of files (process_file backend) acc w)) <= 1.
Proof.
  revert acc w. induction files as [|file files IH]; intros acc w Hnd.
  - simpl. unfold unlinks. simpl. lia.
  - rewrite fmap_cons in Hnd. apply NoDup_cons in Hnd as [Hnotin Hnd].
    simpl for_of.
    destruct (process_file_cases backend file acc w)
      as [[_ E]|(d & _ & [E|[[e E]|[b E]]])].
    + rewrite (bind_throw _ _ _ _ _ _ E). unfold unlinks. simpl. lia.
    + rewrite (bind_pending _ _ _ _ _ E). unfold unlinks. simpl. lia.
    + rewrite (bind_throw _ _ _ _ _ _ E). unfold unlinks. simpl. lia.
    + rewrite (bind_normal _ _ _ _ _ _ E).
      unfold events at 1. cbn [snd].
      rewrite unlinks_app, unlinks_iteration.
      destruct (decide (path file = p)) as [<-|Hne].
      * match goal with
        | |- context [for_of files _ ?a ?w'] =>
            destruct (for_of_unlinks_other backend files a w' (path file) Hnotin)
              as [Hz _]
        end.
        cbv zeta in Hz. rewrite Hz. lia.
      * match goal with
        | |- context [for_of files _ ?a ?w'] => pose proof (IH a w' Hnd)
        end.
        lia.
Qed.

(** The batch stays stored while the loop advances. *)
Lemma stored_after_iteration f file files bytes :
  stored f (file :: files) ->
  stored {| fs_dirs := fs_dirs f;
            fs_files := delete (path file)
                          (<[ processedImagePath file := bytes ]> (fs_files f)) |}
         files.
Proof.
  intros [Hnd Hst].
  rewrite fmap_cons in Hnd. apply NoDup_cons in Hnd as [Hnotin Hnd].
  split; [exact Hnd|]. intros x Hx.
  destruct (Hst x) as ([dx Hxf] & Hxn & Hxo); [by right|].
  split; [|by split].
  cbn [fs_files].
  assert (path x <> path file) as Hne.
  { intros E. apply Hnotin. rewrite <- E. by apply list_elem_of_fmap_2. }
  rewrite lookup_delete_ne by done.
  destruct (decide (processedImagePath file = path x)) as [E|E].
  - rewrite E, lookup_insert_eq. by eexists.
  - rewrite lookup_insert_ne by done. by eexists.
Qed.

Lemma for_of_all_succeed_released files acc w :
  always_succeeds backend ->
  "processed" ∈ fs_dirs (fs w) ->
  stored (fs w) files ->
  (forall x y, x ∈ files -> y ∈ files -> path x <> processedImagePath y) ->
  let r := for_of files (process_file backend) acc w in
  forall x, x ∈ files ->
    unlinks (path x) (events r) = 1
    /\ fs_files (fs (world_after r)) !! path x = None
    /\ is_Some (fs_files (fs (world_after r)) !! processedImagePath x).
Proof.
  intros Hb. revert acc w.
  induction files as [|file files IH]; intros acc w Hd Hst Hdis r x Hx; subst r.
  - by apply elem_of_nil in Hx.
  - pose proof Hst as [Hnd Hall].
    rewrite fmap_cons in Hnd. apply NoDup_cons in Hnd as [Hnotin Hnd].
    destruct (Hall file) as ([d Hfile] & Hn & Hout); [left|].
    destruct (always_succeeds_resolved backend (served w) (request_for file d) Hb)
      as [rsp Hr].
    simpl for_of.
    erewrite bind_normal
      by (apply (process_file_resolved backend file acc w d rsp);
          eauto using processedImagePath_parent).
    unfold world_after at 1 2, events at 1. cbn [fst snd].
    set (w' := {| fs := {| fs_dirs := fs_dirs (fs w);
                           fs_files := delete (path file)
                                         (<[processedImagePath file:=data rsp]>
                                            (fs_files (fs w))) |};
                  served := served w ++ [request_for file d];
                  listening := listening w |}).
    set (acc' := acc ++ [processedImagePath file]).
    assert (stored (fs w') files) as Hst'
        by (apply stored_after_iteration; exact Hst).
    assert (forall x y, x ∈ files -> y ∈ files ->
                        path x <> processedImagePath y) as Hdis'.
    { intros a b Ha Hb'. apply Hdis; by right. }
    assert (forall y, y ∈ files -> path y <> path file) as Hpaths.
    { intros y Hy E. apply Hnotin. rewrite <- E. by apply list_elem_of_fmap_2. }
    rewrite unlinks_app, unlinks_iteration.
    apply elem_of_cons in Hx as [->|Hx].
    + (* the first file *)
      destruct (for_of_unlinks_other backend files acc' w' (path file) Hnotin)
        as [Hz _].
      cbv zeta in Hz. rewrite Hz, decide_True by reflexivity.
      split; [reflexivity|]. split.
      * destruct (for_of_frame backend files acc' w') as (_ & _ & _ & Hf).
        rewrite Hf.
        -- subst w'. cbn [fs fs_files]. apply lookup_delete_eq.
        -- exact Hnotin.
        -- intros Hin. apply list_elem_of_fmap in Hin as (y & Hy & Hyin).
           apply (Hdis file y); [left|by right|exact Hy].
      * assert (processedImagePath file ∉ path <$> files) as Hop.
        { intros Hin. apply list_elem_of_fmap in Hin as (y & Hy & Hyin).
          apply (Hdis y file); [by right|left|by symmetry]. }
        destruct (for_of_unlinks_other backend files acc' w'
                    (processedImagePath file) Hop) as [_ Hk].
        apply Hk. subst w'. cbn [fs fs_files].
        rewrite lookup_delete_ne
          by (intros E; apply (Hdis file file); [left|left|exact E]).
        rewrite lookup_insert_eq. by eexists.
    + (* a later file *)
      destruct (IH acc' w' Hd Hst' Hdis' x Hx) as (Hu & Hgone & Hthere).
      rewrite Hu, decide_False by (intros E; by apply (Hpaths x Hx)).
      done.
Qed.

End Release.

(** X6. When the temporary paths of a batch are pairwise distinct, no
    temporary input is unlinked more than once, whatever the engine does
    and however the batch ends. *)
Theorem upload_unlinks_at_most_once :
  forall (backend : Backend) (req : Request) (w : World) (p : string),
    NoDup (path <$> req_files req) ->
    unlinks p (events (upload_handler backend req w)) <= 1.
Proof.
  intros backend req w p Hnd. rewrite upload_handler_unlinks.
  by apply for_of_unlinks_at_most_once.
Qed.

Lemma upload_unlinks_at_most_once_witness :
  NoDup (path <$> [Sample.cat; Sample.dog; Sample.owl])
  /\ unlinks "uploads/3f1a"
       (events (upload_handler Sample.engine_ok
                  (mkRequest [Sample.cat; Sample.dog; Sample.owl] [])
                  Sample.world)) <= 1.
Proof.
  assert (NoDup (path <$> [Sample.cat; Sample.dog; Sample.owl])) as H.
  { apply (bool_decide_unpack _). vm_compute. exact I. }
  split; [exact H|].
  exact (upload_unlinks_at_most_once Sample.engine_ok
           (mkRequest [Sample.cat; Sample.dog; Sample.owl] [])
           Sample.world "uploads/3f1a" H).
Defined.

(** X7. When every call is served, the [processed] directory exists, the
    batch is stored and no temporary path is also an output path, then
    after the handler every temporary input has been unlinked exactly
    once and is gone from disk, and the output of every file is on
    disk. *)
Theorem upload_success_releases_inputs :
  forall (backend : Backend) (req : Request) (w : World),
    always_succeeds backend ->
    "processed" ∈ fs_dirs (fs w) ->
    stored (fs w) (req_files req) ->
    (forall x y, x ∈ req_files req -> y ∈ req_files req ->
                 path x <> processedImagePath y) ->
    let r := upload_handler backend req w in
    forall x, x ∈ req_files req ->
      unlinks (path x) (events r) = 1
      /\ fs_files (fs (world_after r)) !! path x = None
      /\ is_Some (fs_files (fs (world_after r)) !! processedImagePath x).
Proof.
  intros backend req w Hb Hd Hs Hdis r x Hx. subst r.
  rewrite upload_handler_unlinks, upload_handler_world.
  by apply for_of_all_succeed_released.
Qed.

Lemma upload_success_releases_inputs_witness :
  let r := upload_handler Sample.engine_ok
             (mkRequest [Sample.cat; Sample.dog] []) Sample.world in
  Sample.dog ∈ [Sample.cat; Sample.dog]
  /\ unlinks (path Sample.dog) (events r) = 1
  /\ fs_files (fs (world_after r)) !! path Sample.dog = None
  /\ is_Some (fs_files (fs (world_after r)) !! processedImagePath Sample.dog).
Proof.
  assert (Sample.dog ∈ [Sample.cat; Sample.dog]) as Hin
      by (right; left).
  split; [exact Hin|].
  apply (upload_success_releases_inputs Sample.engine_ok
           (mkRequest [Sample.cat; Sample.dog] []) Sample.world).
  - intros history rq. exists 40, 200, [x89; x50; x4e; x47].
    split; [reflexivity|lia].
  - apply (bool_decide_unpack _). vm_compute. exact I.
  - split.
    + apply (bool_decide_unpack _). vm_compute. exact I.
    + intros x Hx. apply list_elem_of_In in Hx. simpl in Hx.
      destruct Hx as [<-|[<-|[]]];
        (split; [eexists; reflexivity|]; split; [reflexivity|]);
        apply (bool_decide_unpack _); vm_compute; exact I.
  - intros x y Hx Hy.
    apply list_elem_of_In in Hx. apply list_elem_of_In in Hy.
    simpl in Hx, Hy.
    destruct Hx as [<-|[<-|[]]]; destruct Hy as [<-|[<-|[]]]; discriminate.
  - exact Hin.
Defined.

(** ** X8: output paths *)

Lemma string_length_app (a b : string) :
  String.length (a ++ b)%string = String.length a + String.length b.
Proof. induction a as [|c a IH]; simpl; [reflexivity|by rewrite IH]. Qed.

Lemma append_cancel_r (a b s : string) :
  (a ++ s)%string = (b ++ s)%string -> a = b.
Proof.
  revert b. induction a as [|c a IH]; intros [|c' b] H.
  - reflexivity.
  - exfalso. apply (f_equal String.length) in H.
    rewrite !string_length_app in H. simpl in H. lia.
  - exfalso. apply (f_equal String.length) in H.
    rewrite !string_length_app in H. simpl in H. lia.
  - simpl in H. injection H as -> H. f_equal. by apply IH.
Qed.

Lemma append_cancel_l (p a b : string) :
  (p ++ a)%string = (p ++ b)%string -> a = b.
Proof.
  induction p as [|c p IH]; simpl; [done|]. intros H. injection H as H. by apply IH.
Qed.

(** X8. Two files get the same output path exactly when multer gave them
    the same file name: outputs of differently named uploads never
    overwrite each other. *)
Theorem processedImagePath_injective :
  forall x y : File,
    processedImagePath x = processedImagePath y <-> filename x = filename y.
Proof.
  intros x y. unfold processedImagePath. split.
  - intros H. apply append_cancel_l in H. by apply append_cancel_r in H.
  - by intros ->.
Qed.

Lemma processedImagePath_injective_witness :
  filename Sample.cat <> filename Sample.dog
  /\ processedImagePath Sample.cat <> processedImagePath Sample.dog.
Proof.
  assert (filename Sample.cat <> filename Sample.dog) as H by discriminate.
  split; [exact H|].
  intros E. apply H.
  exact (proj1 (processedImagePath_injective Sample.cat Sample.dog) E).
Defined.

(** ** X9: start-up, then a batch *)

(** The start-up checks touch no regular file and at most add the two
    directories. *)
Lemma startup_world w :
  let w1 := world_after (startup w) in
  completion (startup w) = Normal tt
  /\ fs_files (fs w1) = fs_files (fs w)
  /\ path_exists "processed" (fs w1) = true
  /\ forall p, p ∈ fs_dirs (fs w1) ->
               p ∈ fs_dirs (fs w) \/ p = "uploads" \/ p = "processed".
Proof.
  intros w1. subst w1. unfold startup, mbind, M_bind.
  rewrite (ensure_dir_result "uploads" w eq_refl).
  destruct (path_exists "uploads" (fs w)) eqn:Hu.
  - rewrite (ensure_dir_result "processed" w eq_refl).
    destruct (path_exists "processed" (fs w)) eqn:Hp;
      unfold completion, world_after; cbn [fst snd].
    + repeat split; auto.
    + repeat split.
      * rewrite path_exists_add_dir. by rewrite bool_decide_eq_true_2.
      * unfold add_dir, set_fs. cbn [fs fs_dirs]. set_solver.
  - rewrite (ensure_dir_result "processed" (add_dir "uploads" w) eq_refl).
    destruct (path_exists "processed" (fs (add_dir "uploads" w))) eqn:Hp;
      unfold completion, world_after; cbn [fst snd].
    + repeat split; [exact Hp|].
      unfold add_dir, set_fs. cbn [fs fs_dirs]. set_solver.
    + repeat split.
      * rewrite path_exists_add_dir. by rewrite bool_decide_eq_true_2.
      * unfold add_dir, set_fs. cbn [fs fs_dirs]. set_solver.
Qed.

Lemma main_world env_PORT w :
  world_after (main env_PORT w)
  = {| fs := fs (world_after (startup w));
       served := served (world_after (startup w));
       listening := true |}.
Proof.
  destruct (startup_world w) as (Hc & _).
  unfold main, mbind, M_bind.
  destruct (startup w) as [[c ws] ts]. unfold completion in Hc. cbn [fst] in Hc.
  subst c. reflexivity.
Qed.

(** X9. Once the server script has run its start-up checks and called
    [listen], on a disk where no regular file is named [processed], a
    stored batch whose calls are all served is answered 200 with its
    outputs: the checks provide the directory the handler writes to. *)
Theorem startup_then_upload_succeeds :
  forall (env_PORT : option string) (backend : Backend) (req : Request)
         (w : World),
    fs_files (fs w) !! "processed" = None ->
    always_succeeds backend ->
    stored (fs w) (req_files req) ->
    let w1 := world_after (main env_PORT w) in
    let r := upload_handler backend req w1 in
    listening w1 = true
    /\ completion r = Normal tt
    /\ responses (events r) = [ok_response (req_files req)].
Proof.
  intros env_PORT backend req w Hfile Hb [Hnd Hst] w1 r.
  destruct (startup_world w) as (_ & Hfiles & Hproc & Hdirs).
  assert (fs w1 = fs (world_after (startup w))) as Hfs
      by (subst w1; by rewrite main_world).
  split; [subst w1; by rewrite main_world|].
  subst r. apply upload_all_succeed_response; [exact Hb|..].
  - rewrite Hfs. unfold path_exists in Hproc.
    apply orb_true_iff in Hproc as [Hin|Hin].
    + by apply bool_decide_eq_true_1 in Hin.
    + apply bool_decide_eq_true_1 in Hin. rewrite Hfiles, Hfile in Hin.
      by destruct Hin.
  - rewrite Hfs. split; [exact Hnd|]. intros x Hx.
    destruct (Hst x Hx) as (Hsome & Hn & Hout).
    rewrite Hfiles. split; [exact Hsome|]. split; [exact Hn|].
    intros Hin. apply Hdirs in Hin as [Hin|[Hin|Hin]].
    + by apply Hout.
    + discriminate Hin.
    + unfold processedImagePath in Hin. simpl in Hin. discriminate Hin.
Qed.

Lemma startup_then_upload_succeeds_witness :
  let w1 := world_after (main None Sample.unprepared) in
  let r := upload_handler Sample.engine_ok
             (mkRequest [Sample.cat; Sample.dog] []) w1 in
  listening w1 = true
  /\ completion r = Normal tt
  /\ responses (events r) = [ok_response [Sample.cat; Sample.dog]].
Proof.
  apply (startup_then_upload_succeeds None Sample.engine_ok
           (mkRequest [Sample.cat; Sample.dog] []) Sample.unprepared).
  - reflexivity.
  - intros history rq. exists 40, 200, [x89; x50; x4e; x47].
    split; [reflexivity|lia].
  - split.
    + apply (bool_decide_unpack _). vm_compute. exact I.
    + intros x Hx. apply list_elem_of_In in Hx. simpl in Hx.
      destruct Hx as [<-|[<-|[]]];
        (split; [eexists; reflexivity|]; split; [reflexivity|]);
        apply (bool_decide_unpack _); vm_compute; exact I.
Defined.

(* ===================================================================== *)
(** * Part IV. Further properties of the page                             *)
(* ===================================================================== *)

(** ** escapeHtml *)

Lemma string_app_assoc (a b c : string) :
  ((a ++ b) ++ c)%string = (a ++ (b ++ c))%string.
Proof.
  induction a as [|x a IH]; [reflexivity|].
  change (String x ((a ++ b) ++ c) = String x (a ++ (b ++ c)))%string.
  f_equal. exact IH.
Qed.

(** X10. Escaping distributes over concatenation: a text assembled from
    pieces can be escaped piece by piece. *)
Theorem escapeHtml_app :
  forall s t : string,
    Client.escapeHtml (s ++ t)%string
    = (Client.escapeHtml s ++ Client.escapeHtml t)%string.
Proof.
  intros s t. induction s as [|c s IH]; [reflexivity|].
  change (String c s ++ t)%string with (String c (s ++ t)%string).
  rewrite !escapeHtml_cons, IH. symmetry. apply string_app_assoc.
Qed.

(** Which of the six cases a character falls in. *)
Lemma entity_of_cases c :
  (c = "&"%char /\ Client.entity_of c = "&amp;")
  \/ (c = "<"%char /\ Client.entity_of c = "&lt;")
  \/ (c = ">"%char /\ Client.entity_of c = "&gt;")
  \/ (c = dquote /\ Client.entity_of c = "&quot;")
  \/ (c = "'"%char /\ Client.entity_of c = "&#39;")
  \/ (Client.escape_class c = false /\ c <> "&"%char
      /\ Client.entity_of c = String c EmptyString).
Proof.
  unfold Client.entity_of, Client.escape_class.
  destruct (Ascii.eqb_spec c "&") as [->|]; [by left|].
  destruct (Ascii.eqb_spec c "<") as [->|]; [by right; left|].
  destruct (Ascii.eqb_spec c ">") as [->|]; [by right; right; left|].
  destruct (Ascii.eqb_spec c dquote) as [->|]; [by right; right; right; left|].
  destruct (Ascii.eqb_spec c "'") as [->|];
    [by right; right; right; right; left|].
  by right; right; right; right; right.
Qed.

(** X11. Escaping loses nothing: two different texts never have the same
    escaped form. *)
Theorem escapeHtml_injective :
  forall s t : string, Client.escapeHtml s = Client.escapeHtml t -> s = t.
Proof.
  induction s as [|c s IH]; intros [|d t] H.
  - reflexivity.
  - exfalso. rewrite escapeHtml_cons in H.
    destruct (entity_of_cases d) as [[_ E]|[[_ E]|[[_ E]|[[_ E]|[[_ E]|(_ & _ & E)]]]]];
      rewrite E in H; discriminate H.
  - exfalso. rewrite escapeHtml_cons in H.
    destruct (entity_of_cases c) as [[_ E]|[[_ E]|[[_ E]|[[_ E]|[[_ E]|(_ & _ & E)]]]]];
      rewrite E in H; discriminate H.
  - rewrite !escapeHtml_cons in H.
    destruct (entity_of_cases c)
      as [[-> Ec]|[[-> Ec]|[[-> Ec]|[[-> Ec]|[[-> Ec]|(_ & Hc & Ec)]]]]];
      destruct (entity_of_cases d)
        as [[-> Ed]|[[-> Ed]|[[-> Ed]|[[-> Ed]|[[-> Ed]|(_ & Hd & Ed)]]]]];
      rewrite ?Ec, ?Ed in H; simpl in H;
      try discriminate H;
      try (injection H as H; f_equal; by apply IH);
      try (injection H as Hx H; congruence).
    injection H as -> H. f_equal. by apply IH.
Qed.

Lemma escapeHtml_injective_witness :
  Client.escapeHtml "a<b" = Client.escapeHtml "a<b" /\ "a<b" = "a<b".
Proof.
  split; [reflexivity|].
  exact (escapeHtml_injective "a<b" "a<b" eq_refl).
Defined.

Lemma escapeHtml_length s :
  String.length s <= String.length (Client.escapeHtml s).
Proof.
  induction s as [|c s IH]; [done|].
  rewrite escapeHtml_cons, string_length_app.
  destruct (entity_of_cases c) as [[_ E]|[[_ E]|[[_ E]|[[_ E]|[[_ E]|(_ & _ & E)]]]]];
    rewrite E; simpl; lia.
Qed.

(** X12. Escaping never shortens a text, and it returns the text
    unchanged exactly when the text has none of the five characters. *)
Theorem escapeHtml_fixed_points :
  forall s : string,
    String.length s <= String.length (Client.escapeHtml s)
    /\ (Client.escapeHtml s = s
        <-> forall c, Client.occurs c s -> Client.escape_class c = false).
Proof.
  intros s. split; [apply escapeHtml_length|].
  induction s as [|c s IH]; [by split|].
  rewrite escapeHtml_cons. split.
  - intros H d Hd.
    destruct (entity_of_cases c)
      as [[-> E]|[[-> E]|[[-> E]|[[-> E]|[[-> E]|(Hcls & _ & E)]]]]];
      rewrite E in H;
      try (exfalso; apply (f_equal String.length) in H;
           rewrite string_length_app in H; simpl in H;
           pose proof (escapeHtml_length s); lia).
    simpl in H. injection H as H.
    destruct Hd as [->|Hd]; [exact Hcls|]. by apply IH.
  - intros H.
    assert (Client.escape_class c = false) as Hc by (apply H; by left).
    destruct (entity_of_cases c)
      as [[-> E]|[[-> E]|[[-> E]|[[-> E]|[[-> E]|(_ & _ & E)]]]]];
      try discriminate Hc.
    rewrite E. simpl. f_equal. apply IH. intros d Hd. apply H. by right.
Qed.

Lemma escapeHtml_fixed_points_witness :
  (forall c, Client.occurs c "Failed" -> Client.escape_class c = false)
  /\ Client.escapeHtml "Failed" = "Failed".
Proof.
  assert (forall c, Client.occurs c "Failed" -> Client.escape_class c = false)
    as H.
  { intros c Hc. simpl in Hc.
    repeat (destruct Hc as [->|Hc]; [reflexivity|]). destruct Hc. }
  split; [exact H|].
  exact (proj2 (proj2 (escapeHtml_fixed_points "Failed")) H).
Defined.

(** ** The name of a downloaded file *)

Lemma split_cons sep s : exists piece pieces, Page.split sep s = piece :: pieces.
Proof.
  induction s as [|c s (p & ps & IH)]; simpl; [by eexists _, _|].
  destruct (Ascii.eqb c sep); [by eexists _, _|].
  rewrite IH. by eexists _, _.
Qed.

(** No piece contains the separator, and a piece has only characters of
    the string that was split. *)
Lemma split_pieces sep s piece :
  piece ∈ Page.split sep s ->
  ~ Client.occurs sep piece
  /\ forall c, Client.occurs c piece -> Client.occurs c s.
Proof.
  revert piece. induction s as [|c s IH]; intros piece Hin; simpl in Hin.
  - apply list_elem_of_singleton in Hin as ->. split; [intros []|intros c []].
  - destruct (Ascii.eqb_spec c sep) as [->|Hne].
    + apply elem_of_cons in Hin as [->|Hin]; [split; [intros []|intros d []]|].
      destruct (IH _ Hin) as [H1 H2]. split; [exact H1|].
      intros d Hd. right. by apply H2.
    + destruct (split_cons sep s) as (p & ps & E). rewrite E in Hin, IH.
      apply elem_of_cons in Hin as [->|Hin].
      * destruct (IH p) as [H1 H2]; [left|]. split.
        -- intros [Hc|Hc]; [by apply Hne|by apply H1].
        -- intros d [->|Hd]; [by left|right; by apply H2].
      * destruct (IH piece) as [H1 H2]; [by right|]. split; [exact H1|].
        intros d Hd. right. by apply H2.
Qed.

Lemma split_clean sep s :
  ~ Client.occurs sep s -> Page.split sep s = [s].
Proof.
  induction s as [|c s IH]; intros H; [reflexivity|]. simpl.
  destruct (Ascii.eqb_spec c sep) as [->|Hne]; [exfalso; apply H; by left|].
  rewrite IH; [reflexivity|]. intros Hs. apply H. by right.
Qed.

Lemma split_last_segment sep base f :
  ~ Client.occurs sep f ->
  Page.split sep (base ++ String sep f)%string = Page.split sep base ++ [f].
Proof.
  intros Hf. induction base as [|c b IH].
  - simpl. rewrite Ascii.eqb_refl. by rewrite split_clean.
  - change (String c b ++ String sep f)%string
      with (String c (b ++ String sep f)%string).
    simpl. destruct (Ascii.eqb c sep); rewrite IH; [reflexivity|].
    by destruct (split_cons sep b) as (p & ps & ->).
Qed.

Lemma split_first_piece sep f q :
  ~ Client.occurs sep f ->
  Page.split sep (f ++ String sep q)%string = f :: Page.split sep q.
Proof.
  induction f as [|c f IH]; intros Hf.
  - simpl. by rewrite Ascii.eqb_refl.
  - change (String c f ++ String sep q)%string
      with (String c (f ++ String sep q)%string).
    simpl. destruct (Ascii.eqb_spec c sep) as [->|Hne];
      [exfalso; apply Hf; by left|].
    rewrite IH; [reflexivity|]. intros H. apply Hf. by right.
Qed.

(** X13. Whatever the source of an image, the download listener gives
    its link a defined file name, and that name contains neither a slash
    nor a question mark. *)
Theorem download_name_clean :
  forall src : string,
    exists name,
      Page.download_name src = Some name
      /\ ~ Client.occurs "/" name
      /\ ~ Client.occurs "?" name.
Proof.
  intros src. unfold Page.download_name.
  destruct (split_cons "/" src) as (p & ps & Es).
  assert (exists seg, last (Page.split "/" src) = Some seg
                      /\ ~ Client.occurs "/" seg) as (seg & Hlast & Hseg).
  { destruct (last (Page.split "/" src)) as [seg|] eqn:El.
    - exists seg. split; [reflexivity|].
      apply last_Some_elem_of in El. by apply split_pieces in El as [? _].
    - apply last_None in El. rewrite Es in El. discriminate El. }
  rewrite Hlast.
  set (whole := Page.or_string (Some seg) "image.png").
  assert (~ Client.occurs "/" whole) as Hwhole.
  { subst whole. destruct seg as [|c seg]; [|exact Hseg]. simpl.
    intros H. repeat (destruct H as [H|H]; [discriminate H|]). exact H. }
  destruct (split_cons "?" whole) as (h & hs & Eh). rewrite Eh.
  exists h. split; [reflexivity|].
  destruct (split_pieces "?" whole h) as [H1 H2]; [rewrite Eh; left|].
  split; [|exact H1]. intros H. apply Hwhole. by apply H2.
Qed.

(** X14. For a source that ends in a slash and a non-empty segment
    without slash or question mark, the download name is that segment,
    also when a query without slash follows; for a source that ends in
    a slash it is [image.png]. *)
Theorem download_name_last_segment :
  forall base f q : string,
    f <> EmptyString ->
    ~ Client.occurs "/" f ->
    ~ Client.occurs "?" f ->
    ~ Client.occurs "/" q ->
    Page.download_name (base ++ String "/" f)%string = Some f
    /\ Page.download_name (base ++ String "/" (f ++ String "?" q))%string
       = Some f
    /\ Page.download_name (base ++ String "/" EmptyString)%string
       = Some "image.png".
Proof.
  intros base f q Hne Hslash Hq Hqs. unfold Page.download_name.
  split; [|split].
  - rewrite split_last_segment, last_snoc by exact Hslash.
    destruct f as [|c f]; [done|]. simpl Page.or_string.
    by rewrite split_clean.
  - rewrite split_last_segment, last_snoc.
    + destruct f as [|c f]; [done|].
      change (String c f ++ String "?" q)%string
        with (String c (f ++ String "?" q)%string).
      simpl Page.or_string.
      change (String c (f ++ String "?" q)%string)
        with (String c f ++ String "?" q)%string.
      by rewrite split_first_piece.
    + intros H. apply occurs_app in H as [H|H]; [by apply Hslash|].
      destruct H as [H|H]; [discriminate H|by apply Hqs].
  - rewrite split_last_segment, last_snoc by (intros []).
    reflexivity.
Qed.

Lemma download_name_last_segment_witness :
  Page.download_name "http://localhost:3000/processed/3f1a.png"
  = Some "3f1a.png"
  /\ Page.download_name "http://localhost:3000/processed/3f1a.png?v=2"
     = Some "3f1a.png"
  /\ Page.download_name "http://localhost:3000/processed/" = Some "image.png".
Proof.
  apply (download_name_last_segment "http://localhost:3000/processed"
           "3f1a.png" "v=2").
  - discriminate.
  - simpl. intros H. repeat (destruct H as [H|H]; [discriminate H|]). exact H.
  - simpl. intros H. repeat (destruct H as [H|H]; [discriminate H|]). exact H.
  - simpl. intros H. repeat (destruct H as [H|H]; [discriminate H|]). exact H.
Defined.

(** ** The select-all button *)

Lemma has_class_add c d t :
  Page.has_class c (Page.add_class d t)
  = (bool_decide (c = d) || Page.has_class c t).
Proof.
  unfold Page.has_class, Page.add_class, Page.with_class. cbn.
  destruct (decide (c = d)) as [->|Hne].
  - rewrite (bool_decide_eq_true_2 (d = d)) by reflexivity. cbn.
    apply bool_decide_eq_true_2. set_solver.
  - rewrite (bool_decide_eq_false_2 (c = d)) by exact Hne. cbn.
    apply bool_decide_ext. set_solver.
Qed.

Lemma has_class_remove c d t :
  Page.has_class c (Page.remove_class d t)
  = (negb (bool_decide (c = d)) && Page.has_class c t).
Proof.
  unfold Page.has_class, Page.remove_class, Page.with_class. cbn.
  destruct (decide (c = d)) as [->|Hne].
  - rewrite (bool_decide_eq_true_2 (d = d)) by reflexivity. cbn.
    apply bool_decide_eq_false_2. set_solver.
  - rewrite (bool_decide_eq_false_2 (c = d)) by exact Hne. cbn.
    apply bool_decide_ext. set_solver.
Qed.

(** X15. A click on select-all leaves the gallery with as many
    thumbnails, each with its source, caption, index and other classes
    unchanged, and makes the selection uniform: if every image was
    selected (also when there is none) all are deselected, otherwise all
    are selected. *)
Theorem select_all_uniform :
  forall (u : Page.Ui),
    let allSelected := forallb (Page.has_class "selected") (Page.gallery u) in
    let u' := Page.on_select_all u in
    length (Page.gallery u') = length (Page.gallery u)
    /\ forall i t, Page.gallery u !! i = Some t ->
         exists t',
           Page.gallery u' !! i = Some t'
           /\ Page.has_class "selected" t' = negb allSelected
           /\ (forall c, c <> "selected" ->
                         Page.has_class c t' = Page.has_class c t)
           /\ Page.caption t' = Page.caption t
           /\ Page.src (Page.img t') = Page.src (Page.img t)
           /\ Page.dataset_index (Page.img t')
              = Page.dataset_index (Page.img t).
Proof.
  intros u allSelected u'. subst u'. unfold Page.on_select_all. cbn.
  fold allSelected.
  match goal with
  | |- context [List.map ?f (Page.gallery u)] =>
      change (List.map f (Page.gallery u)) with (f <$> Page.gallery u)
  end.
  split; [by rewrite length_fmap|].
  intros i t Hi. rewrite list_lookup_fmap, Hi. cbn.
  eexists. split; [reflexivity|].
  destruct allSelected.
  - split; [|split; [|done]].
    + rewrite has_class_remove.
      by rewrite (bool_decide_eq_true_2 ("selected" = "selected")).
    + intros c Hc. rewrite has_class_remove.
      by rewrite (bool_decide_eq_false_2 (c = "selected")).
  - split; [|split; [|done]].
    + rewrite has_class_add.
      by rewrite (bool_decide_eq_true_2 ("selected" = "selected")).
    + intros c Hc. rewrite has_class_add.
      by rewrite (bool_decide_eq_false_2 (c = "selected")).
Qed.

(** ** The settings panel *)

Section Panel.

Variable assign : Page.Control -> string -> string.
Variable resolve : string -> string.
Variable encodeURIComponent : string -> option string.

Lemma labels_shown_custom s :
  Page.labels_shown s -> Page.labels_shown (Page.maybeSetCustomPreset assign s).
Proof.
  unfold Page.maybeSetCustomPreset.
  destruct (negb (String.eqb (Page.preset s) "custom")); [|done].
  by destruct s.
Qed.

Lemma labels_shown_apply ot t d e f a s :
  Page.labels_shown (Page.apply_preset assign ot t d e f a s).
Proof. destruct s. by repeat split. Qed.

(** A listener of the panel leaves every label on its slider's value. *)
Lemma labels_shown_input c v s :
  Page.labels_shown s ->
  Page.labels_shown (Page.on_input assign c (Page.set_value c v s)).
Proof.
  intros (H1 & H2 & H3 & H4 & H5).
  destruct c; cbn [Page.on_input].
  - apply labels_shown_custom. by destruct s.
  - unfold Page.on_preset_change.
    destruct (Client.get_field _ _); [apply labels_shown_apply|].
    destruct (Page.inherited _); [apply labels_shown_apply|].
    by destruct s.
  - destruct s; cbn in *. by repeat split.
  - destruct s; cbn in *. by repeat split.
  - apply labels_shown_custom. destruct s; cbn in *. by repeat split.
  - apply labels_shown_custom. destruct s; cbn in *. by repeat split.
  - apply labels_shown_custom. destruct s; cbn in *. by repeat split.
Qed.

Lemma controls_step a u :
  Page.controls (Page.step assign resolve encodeURIComponent a u)
  = match a with
    | Page.Input c v =>
        Page.on_input assign c (Page.set_value c v (Page.controls u))
    | _ => Page.controls u
    end.
Proof.
  destruct a; cbn; try reflexivity.
  - by destruct (length _ =? 0)%nat.
  - by destruct (Page.reads u !! k) as [[? ?]|].
  - unfold Page.on_thumb_click.
    destruct (Page.gallery u !! i) as [t|]; [|done].
    by destruct (Page.toggles (Page.img t)).
  - by destruct (Page.selectAllDisabled (Page.buttons u)).
  - destruct (Page.downloadDisabled (Page.buttons u)); [done|].
    unfold Page.on_download. by destruct (length _ =? 0)%nat.
  - destruct (Page.processDisabled (Page.buttons u)); [done|].
    unfold Page.on_process. by destruct (length _ =? 0)%nat.
  - destruct (Page.uploads u !! k); [|done].
    unfold Page.on_upload_settled.
    destruct o as [|ok [p|]]; try reflexivity.
    destruct (ok && Client.truthy p); [|reflexivity].
    by destruct (Page.displayProcessedResults _ _) as [g []].
  - destruct (Page.info_pending u); [|done].
    destruct o as [|[] [[]|]]; cbn [Page.on_info_settled];
      try destruct (Page.info_text _); reflexivity.
Qed.

Lemma labels_shown_run actions u :
  Page.labels_shown (Page.controls u) ->
  Page.labels_shown
    (Page.controls (Page.run assign resolve encodeURIComponent actions u)).
Proof.
  revert u. induction actions as [|a actions IH]; intros u H; [exact H|].
  cbn. apply IH. rewrite controls_step.
  destruct a; try exact H. by apply labels_shown_input.
Qed.

End Panel.

(** X16. From the moment the page is set up, whatever the user and the
    browser do, each of the five labels shows the current value of its
    slider. *)
Theorem labels_always_shown :
  forall (assign : Page.Control -> string -> string)
         (resolve : string -> string)
         (encodeURIComponent : string -> option string)
         (dom : Page.Ui) (actions : list Page.Action),
    Page.labels_shown
      (Page.controls
         (Page.run assign resolve encodeURIComponent actions (Page.init dom))).
Proof.
  intros assign resolve enc dom actions. apply labels_shown_run.
  destruct dom as [g dr [] b ri uf rd up ip al er dl]. by repeat split.
Qed.

(** X17. Choosing a preset of the table, when the controls accept the
    six values of that preset, sets the object type and the five sliders
    to the preset's values, written as [String] writes them, shows them
    in the labels and leaves the preset select on the chosen name;
    choosing a name that is neither in the table nor inherited from
    [Object.prototype] changes nothing else. *)
Theorem preset_applied :
  forall (assign : Page.Control -> string -> string)
         (name : string) (s : Page.Controls),
    let s' := Page.on_input assign Page.Preset
                (Page.set_value Page.Preset name s) in
    (forall p,
        Client.get_field name Page.presets = Some p ->
        assign Page.ObjectType (Page.object_type p) = Page.object_type p ->
        assign Page.TrimapThreshold
          (Page.String_literal (Page.trimap_prob_threshold p))
        = Page.String_literal (Page.trimap_prob_threshold p) ->
        assign Page.TrimapDilation
          (Page.String_literal (Page.trimap_dilation p))
        = Page.String_literal (Page.trimap_dilation p) ->
        assign Page.TrimapErosion
          (Page.String_literal (Page.trimap_erosion_iters p))
        = Page.String_literal (Page.trimap_erosion_iters p) ->
        assign Page.FeatherRadius
          (Page.String_literal (Page.feather_radius p))
        = Page.String_literal (Page.feather_radius p) ->
        assign Page.AlphaThreshold
          (Page.String_literal (Page.alpha_threshold p))
        = Page.String_literal (Page.alpha_threshold p) ->
        Page.preset s' = name
        /\ Page.objectType s' = Page.object_type p
        /\ Page.trimapThreshold s'
           = Page.String_literal (Page.trimap_prob_threshold p)
        /\ Page.trimapDilation s'
           = Page.String_literal (Page.trimap_dilation p)
        /\ Page.trimapErosion s'
           = Page.String_literal (Page.trimap_erosion_iters p)
        /\ Page.featherRadius s'
           = Page.String_literal (Page.feather_radius p)
        /\ Page.alphaThreshold s'
           = Page.String_literal (Page.alpha_threshold p)
        /\ Page.labels_shown s')
    /\ (Client.get_field name Page.presets = None ->
        Page.inherited name = false ->
        s' = Page.set_value Page.Preset name s).
Proof.
  intros assign name s s'. subst s'. cbn [Page.on_input].
  unfold Page.on_preset_change.
  replace (Page.preset (Page.set_value Page.Preset name s)) with name
    by (by destruct s).
  split.
  - intros p Hp Hot Ht Hd He Hf Ha. rewrite Hp.
    split; [by destruct s|].
    destruct s; cbn.
    rewrite Hot, Ht, Hd, He, Hf, Ha. by repeat split.
  - intros Hnone Hinh. by rewrite Hnone, Hinh.
Qed.

Lemma preset_applied_witness :
  let s' := Page.on_input PageSample.strict Page.Preset
              (Page.set_value Page.Preset "portrait"
                 (Page.controls PageSample.dom)) in
  Page.preset s' = "portrait"
  /\ Page.objectType s' = "hairs-like"
  /\ Page.trimapThreshold s' = "230"
  /\ Page.trimapDilation s' = "24"
  /\ Page.trimapErosion s' = "4"
  /\ Page.featherRadius s' = "1.5"
  /\ Page.alphaThreshold s' = "0"
  /\ Page.labels_shown s'.
Proof.
  apply (proj1 (preset_applied PageSample.strict "portrait"
                  (Page.controls PageSample.dom))
           (Page.mkPreset "hairs-like" (Page.Int 230) (Page.Int 24)
              (Page.Int 4) (Page.Frac 1 5) (Page.Int 0)));
    reflexivity.
Defined.

(** X18. Moving the erosion, feather or alpha slider, or changing the
    object type, switches the preset select to [custom] (to what the
    select makes of that value) unless it is there already; moving the
    threshold or the dilation slider leaves the preset select as it
    is. *)
Theorem preset_select_after_input :
  forall (assign : Page.Control -> string -> string)
         (c : Page.Control) (v : string) (s : Page.Controls),
    c <> Page.Preset ->
    Page.preset (Page.on_input assign c (Page.set_value c v s))
    = match c with
      | Page.TrimapThreshold => Page.preset s
      | Page.TrimapDilation => Page.preset s
      | _ => if String.eqb (Page.preset s) "custom" then "custom"
             else assign Page.Preset "custom"
      end.
Proof.
  intros assign c v s Hc.
  destruct c; try done; destruct s as [ot pr]; cbn;
    unfold Page.maybeSetCustomPreset; cbn;
    destruct (String.eqb_spec pr "custom") as [->|]; reflexivity.
Qed.

Lemma preset_select_after_input_witness :
  Page.preset (Page.on_input PageSample.accept Page.FeatherRadius
                 (Page.set_value Page.FeatherRadius "2"
                    (Page.controls PageSample.dom))) = "custom"
  /\ Page.preset (Page.on_input PageSample.accept Page.TrimapThreshold
                    (Page.set_value Page.TrimapThreshold "200"
                       (Page.controls PageSample.dom))) = "auto".
Proof.
  split.
  - exact (preset_select_after_input PageSample.accept Page.FeatherRadius "2"
             (Page.controls PageSample.dom) ltac:(discriminate)).
  - exact (preset_select_after_input PageSample.accept Page.TrimapThreshold
             "200" (Page.controls PageSample.dom) ltac:(discriminate)).
Defined.

(** ** The process button *)

Section Processing.

Variable assign : Page.Control -> string -> string.
Variable resolve : string -> string.
Variable encodeURIComponent : string -> option string.

Local Abbreviation step := (Page.step assign resolve encodeURIComponent).
Local Abbreviation run := (Page.run assign resolve encodeURIComponent).

Lemma on_upload_settled_buttons o u :
  Page.buttons (Page.on_upload_settled encodeURIComponent o u)
  = Page.idle_buttons
  /\ Page.uploads (Page.on_upload_settled encodeURIComponent o u)
     = Page.uploads u.
Proof.
  unfold Page.on_upload_settled.
  destruct o as [|ok [p|]]; try done.
  destruct (ok && Client.truthy p); [|done].
  by destruct (Page.displayProcessedResults _ _) as [g []].
Qed.

(** The requests in flight and the buttons after one action. *)
Lemma uploads_step a u :
  (Page.uploads (step a u), Page.buttons (step a u))
  = match a with
    | Page.ProcessClick =>
        if Page.processDisabled (Page.buttons u)
           || Nat.eqb (length (List.filter (Page.has_class "selected")
                                 (Page.gallery u))) 0
        then (Page.uploads u, Page.buttons u)
        else (Page.uploads u
              ++ [ {| Page.up_params := Page.query (Page.controls u);
                      Page.up_images :=
                        List.map (Page.form_entry (Page.uploadedFiles u))
                          (List.filter (Page.has_class "selected")
                             (Page.gallery u)) |} ],
              Page.busy_buttons)
    | Page.UploadSettled k o =>
        match Page.uploads u !! k with
        | Some _ => (delete k (Page.uploads u), Page.idle_buttons)
        | None => (Page.uploads u, Page.buttons u)
        end
    | _ => (Page.uploads u, Page.buttons u)
    end.
Proof.
  destruct a; cbn; try reflexivity.
  - by destruct (length _ =? 0)%nat.
  - by destruct (Page.reads u !! k) as [[? ?]|].
  - unfold Page.on_thumb_click.
    destruct (Page.gallery u !! i) as [t|]; [|done].
    by destruct (Page.toggles (Page.img t)).
  - by destruct (Page.selectAllDisabled (Page.buttons u)).
  - destruct (Page.downloadDisabled (Page.buttons u)); [done|].
    unfold Page.on_download. by destruct (length _ =? 0)%nat.
  - destruct (Page.processDisabled (Page.buttons u)); [done|]. cbn.
    unfold Page.on_process. by destruct (length _ =? 0)%nat.
  - destruct (Page.uploads u !! k); [|done].
    by destruct (on_upload_settled_buttons o
                   (Page.set_uploads (delete k (Page.uploads u)) u))
      as [-> ->].
  - destruct (Page.info_pending u); [|done].
    destruct o as [|[] [[]|]]; cbn [Page.on_info_settled];
      try destruct (Page.info_text _); reflexivity.
Qed.

Lemma one_upload_step a u :
  Page.one_upload u -> Page.one_upload (step a u).
Proof.
  intros H. unfold Page.one_upload.
  pose proof (uploads_step a u) as E.
  remember (step a u) as u' eqn:Eu'. clear Eu'.
  destruct a; try (injection E as Eu Eb; rewrite Eu, Eb; exact H).
  - destruct (Page.processDisabled (Page.buttons u)) eqn:Hd; cbn in E.
    { injection E as Eu Eb. rewrite Eu, Eb. exact H. }
    destruct (length _ =? 0)%nat.
    { injection E as Eu Eb. rewrite Eu, Eb. exact H. }
    injection E as Eu Eb. rewrite Eu, Eb.
    destruct H as [->|[_ Hb]].
    + right. split; [by eexists|reflexivity].
    + rewrite Hb in Hd. discriminate Hd.
  - destruct (Page.uploads u !! k) eqn:Hk.
    + injection E as Eu Eb. rewrite Eu. left.
      destruct H as [H|[[rq H] _]]; rewrite H in Hk |- *.
      * discriminate Hk.
      * destruct k; [reflexivity|discriminate Hk].
    + injection E as Eu Eb. rewrite Eu, Eb. exact H.
Qed.

Lemma one_upload_run actions u :
  Page.one_upload u -> Page.one_upload (run actions u).
Proof.
  revert u. induction actions as [|a actions IH]; intros u H; [exact H|].
  cbn. by apply IH, one_upload_step.
Qed.

End Processing.

(** X19. At any time after the page is set up at most one upload request
    is in flight, and while one is, the three buttons are disabled and
    the process button reads [Processing…]. *)
Theorem one_upload_at_a_time :
  forall (assign : Page.Control -> string -> string)
         (resolve : string -> string)
         (encodeURIComponent : string -> option string)
         (dom : Page.Ui) (actions : list Page.Action),
    Page.one_upload
      (Page.run assign resolve encodeURIComponent actions (Page.init dom)).
Proof.
  intros assign resolve enc dom actions.
  apply one_upload_run. by left.
Qed.

(** X20. When the upload request settles, however it settles (no
    connection, an error status, a body that is not JSON or not truthy,
    results that make the display throw, or a good answer), the three
    buttons are enabled again, the process button reads
    [Process Images] and no request is left in flight. *)
Theorem upload_settled_recovers :
  forall (assign : Page.Control -> string -> string)
         (resolve : string -> string)
         (encodeURIComponent : string -> option string)
         (dom : Page.Ui) (actions : list Page.Action)
         (k : nat) (o : Page.FetchOutcome),
    let u := Page.run assign resolve encodeURIComponent actions
               (Page.init dom) in
    is_Some (Page.uploads u !! k) ->
    let u' := Page.step assign resolve encodeURIComponent
                (Page.UploadSettled k o) u in
    Page.buttons u' = Page.idle_buttons /\ Page.uploads u' = [].
Proof.
  intros assign resolve enc dom actions k o u [rq Hk] u'.
  pose proof (one_upload_at_a_time assign resolve enc dom actions) as Hone.
  change (Page.one_upload u) in Hone.
  pose proof (uploads_step assign resolve enc (Page.UploadSettled k o) u) as E.
  change (Page.step assign resolve enc (Page.UploadSettled k o) u) with u' in E.
  clearbody u'. clearbody u. cbn in E. rewrite Hk in E. injection E as Hu Hb.
  split; [exact Hb|]. rewrite Hu.
  destruct Hone as [H|[[rq' H] _]]; rewrite H in Hk |- *.
  - discriminate Hk.
  - destruct k; [reflexivity|discriminate Hk].
Qed.

Lemma upload_settled_recovers_witness :
  let u := Page.run PageSample.accept PageSample.absolute PageSample.plain
             [ Page.FilesChosen [PageSample.cat_jpg; PageSample.dog_jpg];
               Page.ReadLoaded 1 "data:image/jpeg;base64,AgI=";
               Page.ReadLoaded 0 "data:image/jpeg;base64,AQE=";
               Page.ThumbClick 0; Page.ProcessClick ]
             (Page.init PageSample.dom) in
  let u' := Page.step PageSample.accept PageSample.absolute PageSample.plain
              (Page.UploadSettled 0 Page.NetworkError) u in
  is_Some (Page.uploads u !! 0)
  /\ Page.buttons u' = Page.idle_buttons
  /\ Page.uploads u' = [].
Proof.
  intros u u'.
  assert (is_Some (Page.uploads u !! 0)) as H.
  { subst u. eexists. vm_compute. reflexivity. }
  split; [exact H|].
  exact (upload_settled_recovers PageSample.accept PageSample.absolute
           PageSample.plain PageSample.dom
           [ Page.FilesChosen [PageSample.cat_jpg; PageSample.dog_jpg];
             Page.ReadLoaded 1 "data:image/jpeg;base64,AgI=";
             Page.ReadLoaded 0 "data:image/jpeg;base64,AQE=";
             Page.ThumbClick 0; Page.ProcessClick ]
           0 Page.NetworkError H).
Defined.

(** X21. A click on the enabled process button, at any time after the
    page is set up: with no image selected it only raises the alert
    [Please select images to process.] and sends nothing; otherwise it
    disables the buttons and sends exactly one request, whose query
    carries the object type and the five values the labels show and
    whose [images] are the entries of the selected thumbnails in gallery
    order. *)
Theorem process_click_request :
  forall (assign : Page.Control -> string -> string)
         (resolve : string -> string)
         (encodeURIComponent : string -> option string)
         (dom : Page.Ui) (actions : list Page.Action),
    let u := Page.run assign resolve encodeURIComponent actions
               (Page.init dom) in
    let selected := List.filter (Page.has_class "selected") (Page.gallery u) in
    let u' := Page.step assign resolve encodeURIComponent Page.ProcessClick u in
    Page.processDisabled (Page.buttons u) = false ->
    (selected = [] ->
     u' = Page.alert "Please select images to process." u
     /\ Page.uploads u' = [])
    /\ (selected <> [] ->
        Page.buttons u' = Page.busy_buttons
        /\ Page.uploads u'
           = [ {| Page.up_params :=
                    [ ("object_type", Page.objectType (Page.controls u));
                      ("trimap_prob_threshold",
                       Page.trimapThresholdValue (Page.controls u));
                      ("trimap_dilation",
                       Page.trimapDilationValue (Page.controls u));
                      ("trimap_erosion_iters",
                       Page.trimapErosionValue (Page.controls u));
                      ("feather_radius",
                       Page.featherRadiusValue (Page.controls u));
                      ("alpha_threshold",
                       Page.alphaThresholdValue (Page.controls u)) ];
                  Page.up_images :=
                    List.map (Page.form_entry (Page.uploadedFiles u))
                      selected |} ]).
Proof.
  intros assign resolve enc dom actions u selected u' Hen.
  pose proof (one_upload_at_a_time assign resolve enc dom actions) as Hone.
  change (Page.one_upload u) in Hone.
  pose proof (labels_always_shown assign resolve enc dom actions)
    as (L1 & L2 & L3 & L4 & L5).
  change (Page.run assign resolve enc actions (Page.init dom)) with u
    in L1, L2, L3, L4, L5.
  clearbody u.
  assert (Page.uploads u = []) as Hnone.
  { destruct Hone as [H|[_ Hb]]; [exact H|].
    rewrite Hb in Hen. discriminate Hen. }
  split.
  - intros Hsel. subst u'. cbn. rewrite Hen. unfold Page.on_process.
    fold selected. rewrite Hsel. cbn. split; [reflexivity|exact Hnone].
  - intros Hsel.
    pose proof (uploads_step assign resolve enc Page.ProcessClick u) as E.
    change (Page.step assign resolve enc Page.ProcessClick u) with u' in E.
    clearbody u'. cbn in E. rewrite Hen in E. fold selected in E.
    destruct selected as [|t sel] eqn:Es; [done|]. cbn in E.
    injection E as Hu Hb. split; [exact Hb|].
    rewrite Hu, Hnone. unfold Page.query.
    by rewrite L1, L2, L3, L4, L5.
Qed.

Lemma process_click_request_witness :
  let u := Page.run PageSample.accept PageSample.absolute PageSample.plain
             [ Page.FilesChosen [PageSample.cat_jpg; PageSample.dog_jpg];
               Page.ReadLoaded 1 "data:image/jpeg;base64,AgI=";
               Page.ReadLoaded 0 "data:image/jpeg;base64,AQE=";
               Page.ThumbClick 0 ]
             (Page.init PageSample.dom) in
  let selected := List.filter (Page.has_class "selected") (Page.gallery u) in
  let u' := Page.step PageSample.accept PageSample.absolute PageSample.plain
              Page.ProcessClick u in
  Page.processDisabled (Page.buttons u) = false
  /\ selected <> []
  /\ Page.buttons u' = Page.busy_buttons
  /\ Page.uploads u'
     = [ {| Page.up_params :=
              [ ("object_type", Page.objectType (Page.controls u));
                ("trimap_prob_threshold",
                 Page.trimapThresholdValue (Page.controls u));
                ("trimap_dilation",
                 Page.trimapDilationValue (Page.controls u));
                ("trimap_erosion_iters",
                 Page.trimapErosionValue (Page.controls u));
                ("feather_radius",
                 Page.featherRadiusValue (Page.controls u));
                ("alpha_threshold",
                 Page.alphaThresholdValue (Page.controls u)) ];
            Page.up_images :=
              List.map (Page.form_entry (Page.uploadedFiles u)) selected |} ].
Proof.
  intros u selected u'.
  assert (Page.processDisabled (Page.buttons u) = false) as Hen.
  { subst u. vm_compute. reflexivity. }
  assert (selected <> []) as Hsel.
  { subst selected u. vm_compute. discriminate. }
  split; [exact Hen|]. split; [exact Hsel|].
  exact (proj2 (process_click_request PageSample.accept
                  PageSample.absolute PageSample.plain PageSample.dom
                  [ Page.FilesChosen [PageSample.cat_jpg; PageSample.dog_jpg];
                    Page.ReadLoaded 1 "data:image/jpeg;base64,AgI=";
                    Page.ReadLoaded 0 "data:image/jpeg;base64,AQE=";
                    Page.ThumbClick 0 ]
                  Hen) Hsel).
Defined.

(** The request of the sample page: the thumbnail first in the gallery,
    the one that loaded first, stands for the second file chosen. *)
Example process_click_sample :
  Page.uploads (PageSample.step Page.ProcessClick PageSample.two_thumbs)
  = [ {| Page.up_params :=
           [ ("object_type", "hairs-like");
             ("trimap_prob_threshold", "231");
             ("trimap_dilation", "30");
             ("trimap_erosion_iters", "5");
             ("feather_radius", "0");
             ("alpha_threshold", "0") ];
         Page.up_images := [Page.EntryFile PageSample.dog_jpg] |} ].
Proof. vm_compute. reflexivity. Qed.

(** ** Thumbnails and the files they stand for *)

Section Indexes.

Variable assign : Page.Control -> string -> string.
Variable resolve : string -> string.
Variable encodeURIComponent : string -> option string.

Local Abbreviation step := (Page.step assign resolve encodeURIComponent).
Local Abbreviation run := (Page.run assign resolve encodeURIComponent).

(** What a thumbnail built for an item is like. *)
Lemma result_thumb_inv item t :
  Page.result_thumb encodeURIComponent item = Some t ->
  item <> JNull
  /\ Page.has_class "processed" t = Page.truthy_value (Page.prop "ok" item)
  /\ Page.has_class "error" t
     = negb (Page.truthy_value (Page.prop "ok" item))
  /\ Page.has_class "selected" t = false
  /\ Page.dataset_index (Page.img t) = None.
Proof.
  unfold Page.result_thumb. intros E.
  destruct item; try discriminate E; (split; [discriminate|]);
    destruct (Page.truthy_value _);
    repeat match type of E with
           | mbind _ ?m = Some _ =>
               destruct m eqn:?; cbn in E; [|discriminate E]
           end;
    injection E as <-; unfold Page.has_class; cbn; repeat split;
    try (apply bool_decide_eq_true_2; set_solver);
    try (apply bool_decide_eq_false_2; set_solver).
Qed.

(** The thumbnails of displayed results carry no index. *)
Lemma append_results_no_index items g :
  (forall t, t ∈ g -> Page.dataset_index (Page.img t) = None) ->
  forall t, t ∈ (Page.append_results encodeURIComponent items g).1 ->
            Page.dataset_index (Page.img t) = None.
Proof.
  revert g. induction items as [|item items IH]; intros g Hg t Ht; cbn in Ht.
  - by apply Hg.
  - destruct (Page.result_thumb encodeURIComponent item) as [t0|] eqn:E;
      [|by apply Hg].
    apply (IH (g ++ [t0])); [|exact Ht].
    intros t1 Ht1. apply elem_of_app in Ht1 as [Ht1|Ht1]; [by apply Hg|].
    apply list_elem_of_singleton in Ht1 as ->.
    by apply result_thumb_inv in E as (_ & _ & _ & _ & E).
Qed.

Lemma displayed_no_index results t :
  t ∈ (Page.displayProcessedResults encodeURIComponent results).1 ->
  Page.dataset_index (Page.img t) = None.
Proof.
  unfold Page.displayProcessedResults.
  destruct results; cbn; try (intros H; by apply elem_of_nil in H).
  apply append_results_no_index. intros t0 H. by apply elem_of_nil in H.
Qed.

Lemma with_class_same cls t :
  Page.dataset_index (Page.img (Page.with_class cls t))
  = Page.dataset_index (Page.img t)
  /\ Page.caption (Page.with_class cls t) = Page.caption t.
Proof. done. Qed.

Lemma toggle_class_same c t :
  Page.dataset_index (Page.img (Page.toggle_class c t))
  = Page.dataset_index (Page.img t)
  /\ Page.caption (Page.toggle_class c t) = Page.caption t.
Proof. unfold Page.toggle_class. by destruct (Page.has_class c t). Qed.

Lemma indexed_same_files u u' :
  Page.uploadedFiles u' = Page.uploadedFiles u ->
  Page.reads u' = Page.reads u ->
  (forall t', t' ∈ Page.gallery u' ->
     Page.dataset_index (Page.img t') = None
     \/ exists t, t ∈ Page.gallery u
          /\ Page.dataset_index (Page.img t') = Page.dataset_index (Page.img t)
          /\ Page.caption t' = Page.caption t) ->
  Page.indexed u -> Page.indexed u'.
Proof.
  intros Hf Hr Hg [H1 H2]. split.
  - intros t' i Ht' Hi. rewrite Hf.
    destruct (Hg t' Ht') as [Hn|(t & Ht & Hidx & Hcap)]; [congruence|].
    rewrite Hcap. apply H1; [exact Ht|congruence].
  - intros i f Hin. rewrite Hf. apply H2. by rewrite <- Hr.
Qed.

Lemma indexed_displayImages files u :
  Page.reads u = [] ->
  Page.indexed (Page.displayImages files (Page.set_files files u)).
Proof.
  intros Hr. split; cbn.
  - intros t i Ht. by apply elem_of_nil in Ht.
  - intros i f Hin. rewrite Hr in Hin. cbn in Hin.
    apply elem_of_lookup_imap in Hin as (j & x & [= -> ->] & Hx). exact Hx.
Qed.

(** An action keeps the indexes right, provided files are not replaced
    while reads are in progress. *)
Lemma indexed_step a u :
  (Page.selects a = true -> Page.reads u = []) ->
  Page.indexed u -> Page.indexed (step a u).
Proof.
  intros Hcalm H.
  destruct a; cbn.
  - revert H. apply indexed_same_files; try done. intros t' Ht'. right. eauto.
  - revert H. apply indexed_same_files; try done. intros t' Ht'. right. eauto.
  - revert H. apply indexed_same_files; try done. intros t' Ht'. right. eauto.
  - revert H. apply indexed_same_files; try done. intros t' Ht'. right. eauto.
  - destruct (length _ =? 0)%nat.
    + revert H. apply indexed_same_files; try done. intros t' Ht'. right. eauto.
    + apply (indexed_displayImages _ (Page.set_dragging false u)).
      by apply Hcalm.
  - apply indexed_displayImages. by apply Hcalm.
  - destruct (Page.reads u !! k) as [[index file]|] eqn:Hk; [|exact H].
    destruct H as [H1 H2]. split; cbn.
    + intros t i Ht Hi. apply elem_of_app in Ht as [Ht|Ht]; [by apply H1|].
      apply list_elem_of_singleton in Ht as ->. cbn in Hi. injection Hi as <-.
      exists file. split; [|reflexivity].
      apply H2. by apply list_elem_of_lookup_2 in Hk.
    + intros i f Hin. apply H2.
      apply list_elem_of_lookup in Hin as [j Hj].
      rewrite list_lookup_delete in Hj.
      destruct (decide (j < k)); by apply list_elem_of_lookup_2 in Hj.
  - destruct H as [H1 H2]. split; cbn; [exact H1|].
    intros i f Hin. apply H2.
    apply list_elem_of_lookup in Hin as [j Hj].
    rewrite list_lookup_delete in Hj.
    destruct (decide (j < k)); by apply list_elem_of_lookup_2 in Hj.
  - unfold Page.on_thumb_click.
    destruct (Page.gallery u !! i) as [t|] eqn:Hi; [|exact H].
    destruct (Page.toggles (Page.img t)); [|exact H].
    revert H. apply indexed_same_files; try done. cbn. intros t' Ht'.
    apply list_elem_of_lookup in Ht' as [j Hj].
    destruct (decide (j = i)) as [->|Hne].
    + rewrite list_lookup_insert_eq in Hj
        by (by apply lookup_lt_Some in Hi).
      injection Hj as <-. right. exists t.
      split; [by apply list_elem_of_lookup_2 in Hi|].
      apply toggle_class_same.
    + rewrite list_lookup_insert_ne in Hj by done.
      right. exists t'. split; [by apply list_elem_of_lookup_2 in Hj|done].
  - destruct (Page.selectAllDisabled (Page.buttons u)); [exact H|].
    revert H. apply indexed_same_files; try done. cbn. intros t' Ht'.
    apply list_elem_of_In, in_map_iff in Ht' as (t & <- & Ht).
    right. exists t. split; [by apply list_elem_of_In|].
    destruct (forallb _ _); apply with_class_same.
  - destruct (Page.downloadDisabled (Page.buttons u)); [exact H|].
    unfold Page.on_download. destruct (length _ =? 0)%nat;
      revert H; apply indexed_same_files; try done;
      intros t' Ht'; right; eauto.
  - destruct (Page.processDisabled (Page.buttons u)); [exact H|].
    unfold Page.on_process. destruct (length _ =? 0)%nat;
      revert H; apply indexed_same_files; try done;
      intros t' Ht'; right; eauto.
  - destruct (Page.uploads u !! k); [|exact H].
    unfold Page.on_upload_settled.
    destruct o as [|ok [p|]];
      try (revert H; apply indexed_same_files; try done;
           intros t' Ht'; right; eauto).
    destruct (ok && Client.truthy p);
      [|revert H; apply indexed_same_files; try done;
        intros t' Ht'; right; eauto].
    pose proof (displayed_no_index (Client.payload_results p)) as Hno.
    destruct (Page.displayProcessedResults _ _) as [g []];
      revert H; apply indexed_same_files; try done;
      cbn; intros t' Ht'; left; by apply Hno.
  - destruct (Page.info_pending u); [|exact H].
    destruct o as [|[] [[]|]]; cbn [Page.on_info_settled];
      try destruct (Page.info_text _);
      revert H; apply indexed_same_files; try done;
      intros t' Ht'; right; eauto.
Qed.

Lemma indexed_run actions u :
  Page.calm assign resolve encodeURIComponent actions u ->
  Page.indexed u -> Page.indexed (run actions u).
Proof.
  revert u. induction actions as [|a actions IH]; intros u Hc H; [exact H|].
  destruct Hc as [Ha Hc]. cbn. apply IH; [exact Hc|]. by apply indexed_step.
Qed.

End Indexes.

(** X22. Starting from an empty gallery, as long as files are chosen or
    dropped only while no file read is in progress, every thumbnail that
    carries an index stands for the file of [uploadedFiles] named in its
    caption: a process click submits, for each selected thumbnail with
    an index, exactly that file.  A selected thumbnail without index, as
    those of displayed results, is submitted as the string
    [undefined]. *)
Theorem selected_thumbnails_submitted :
  forall (assign : Page.Control -> string -> string)
         (resolve : string -> string)
         (encodeURIComponent : string -> option string)
         (dom : Page.Ui) (actions : list Page.Action),
    Page.gallery dom = [] ->
    Page.calm assign resolve encodeURIComponent actions (Page.init dom) ->
    let u := Page.run assign resolve encodeURIComponent actions
               (Page.init dom) in
    Page.indexed u
    /\ forall t, t ∈ Page.gallery u ->
         match Page.dataset_index (Page.img t) with
         | Some i =>
             exists f, Page.form_entry (Page.uploadedFiles u) t
                       = Page.EntryFile f
                       /\ Page.uploadedFiles u !! i = Some f
                       /\ Page.file_name f = Page.caption t
         | None =>
             Page.form_entry (Page.uploadedFiles u) t
             = Page.EntryString "undefined"
         end.
Proof.
  intros assign resolve enc dom actions Hg Hcalm u.
  assert (Page.indexed u) as H.
  { subst u. apply indexed_run; [exact Hcalm|].
    split; cbn.
    - rewrite Hg. intros t i Ht. by apply elem_of_nil in Ht.
    - intros i f Hin. by apply elem_of_nil in Hin. }
  split; [exact H|]. intros t Ht. unfold Page.form_entry.
  destruct (Page.dataset_index (Page.img t)) as [i|] eqn:Hi; [|reflexivity].
  destruct H as [H1 _]. destruct (H1 t i Ht Hi) as (f & Hf & Hname).
  exists f. by rewrite Hf.
Qed.

Lemma selected_thumbnails_submitted_witness :
  let actions :=
    [ Page.FilesChosen [PageSample.cat_jpg; PageSample.dog_jpg];
      Page.ReadLoaded 1 "data:image/jpeg;base64,AgI=";
      Page.ReadLoaded 0 "data:image/jpeg;base64,AQE=";
      Page.ThumbClick 0 ] in
  let u := Page.run PageSample.accept PageSample.absolute PageSample.plain
             actions (Page.init PageSample.dom) in
  Page.gallery PageSample.dom = []
  /\ Page.calm PageSample.accept PageSample.absolute PageSample.plain
       actions (Page.init PageSample.dom)
  /\ Page.indexed u.
Proof.
  intros actions u.
  assert (Page.calm PageSample.accept PageSample.absolute PageSample.plain
            actions (Page.init PageSample.dom)) as Hcalm.
  { subst actions. cbn [Page.calm].
    repeat split; intros H; try discriminate H; reflexivity. }
  split; [reflexivity|]. split; [exact Hcalm|].
  exact (proj1 (selected_thumbnails_submitted PageSample.accept
                  PageSample.absolute PageSample.plain PageSample.dom
                  actions eq_refl Hcalm)).
Defined.

(** Files chosen again while the reads of the first choice are still in
    progress: a thumbnail of the first choice arrives late, and the
    process button submits no file for it. *)
Example stale_thumbnail_submits_no_file :
  let u := PageSample.run
             [ Page.FilesChosen [PageSample.cat_jpg; PageSample.dog_jpg];
               Page.FilesChosen [PageSample.cat_jpg];
               Page.ReadLoaded 1 "data:image/jpeg;base64,AgI=";
               Page.ThumbClick 0;
               Page.ProcessClick ]
             (Page.init PageSample.dom) in
  Page.caption <$> Page.gallery u = ["dog.jpg"]
  /\ Page.up_images <$> Page.uploads u = [[Page.EntryString "undefined"]].
Proof. vm_compute. split; reflexivity. Qed.

(** ** Displaying the results *)

Section Results.

Variable encodeURIComponent : string -> option string.


End Results.



(** An item whose name cannot be converted to a string stops the
    display: the thumbnail of the item before it stays, the item after
    it is never shown, and the call throws. *)
Example display_stops_at_unprintable_item :
  let items :=
    [ JObj [("ok", JBool true); ("url", JStr "/processed/3f1a.png");
            ("name", JStr "cat.jpg"); ("ms", JNum 12)];
      JObj [("ok", JBool true); ("url", JStr "/processed/9c2b.png");
            ("name", JObj [("toString", JNum 1)])];
      JObj [("ok", JBool true); ("url", JStr "/processed/e07d.png");
            ("name", JStr "owl.png")] ] in
  let r := Page.displayProcessedResults PageSample.plain (JArr items) in
  Page.caption <$> r.1 = ["cat.jpg ✓ (12ms)"] /\ r.2 = true.
Proof. vm_compute. split; reflexivity. Qed.

Lemma select_all_uniform_witness :
  let u := PageSample.two_thumbs in
  exists t t',
    Page.gallery u !! 1 = Some t
    /\ Page.has_class "selected" t = false
    /\ Page.gallery (Page.on_select_all u) !! 1 = Some t'
    /\ Page.has_class "selected" t' = true
    /\ Page.caption t' = Page.caption t.
Proof.
  intros u.
  destruct (Page.gallery u !! 1) as [t|] eqn:Ht; [|vm_compute in Ht; discriminate Ht].
  destruct (proj2 (select_all_uniform u) 1 t Ht) as (t' & Ht' & Hsel & _ & Hcap & _).
  exists t, t'. split; [reflexivity|]. split.
  { vm_compute in Ht. injection Ht as <-. vm_compute. reflexivity. }
  split; [exact Ht'|]. split; [|exact Hcap].
  rewrite Hsel. subst u. vm_compute. reflexivity.
Defined.

(** ** The gateway's answers on the page *)

(** X25. Whatever the gateway answers to a batch, the page shows no
    processed image for it: on the 200 answer, whose body has no
    [results], the gallery is emptied; on the 500 answer the gallery is
    kept, the error is logged and the alert
    [An error occurred while processing the images.] is raised.  In both
    cases the buttons are enabled again. *)
Theorem gateway_answer_on_page :
  forall (JSON_parse : string -> option JSON)
         (encodeURIComponent : string -> option string)
         (backend : Backend) (req : Request) (w : World)
         (resp : Response) (u : Page.Ui),
    resp ∈ responses (events (upload_handler backend req w)) ->
    let u' := Page.on_upload_settled encodeURIComponent
                (Page.fetched JSON_parse resp) u in
    Page.buttons u' = Page.idle_buttons
    /\ ((resp = ok_response (req_files req)
         /\ Page.gallery u' = []
         /\ Page.alerts u' = Page.alerts u)
        \/ (resp = error_response
            /\ Page.gallery u' = Page.gallery u
            /\ Page.alerts u'
               = Page.alerts u
                 ++ ["An error occurred while processing the images."])).
Proof.
  intros parse enc backend req w resp u Hin u'.
  split; [subst u'; apply on_upload_settled_buttons|].
  destruct (upload_handler_responses backend req w)
    as [[_ Hr]|[[_ Hr]|[_ Hr]]]; rewrite Hr in Hin.
  - by apply elem_of_nil in Hin.
  - apply list_elem_of_singleton in Hin as ->. right. subst u'.
    unfold Page.on_upload_settled, Page.fetched. cbn.
    by destruct (parse "Error processing images").
  - apply list_elem_of_singleton in Hin as ->. left. by subst u'.
Qed.

Lemma gateway_answer_on_page_witness :
  let resp := ok_response [Sample.cat; Sample.dog] in
  let u' := Page.on_upload_settled PageSample.plain
              (Page.fetched (fun _ => None) resp)
              (PageSample.step Page.ProcessClick PageSample.two_thumbs) in
  resp ∈ responses (events (upload_handler Sample.engine_ok
                              (mkRequest [Sample.cat; Sample.dog] [])
                              Sample.world))
  /\ Page.buttons u' = Page.idle_buttons.
Proof.
  intros resp u'.
  assert (resp ∈ responses (events (upload_handler Sample.engine_ok
                                      (mkRequest [Sample.cat; Sample.dog] [])
                                      Sample.world))) as Hin.
  { vm_compute. left. }
  split; [exact Hin|].
  exact (proj1 (gateway_answer_on_page (fun _ => None) PageSample.plain
                  Sample.engine_ok (mkRequest [Sample.cat; Sample.dog] [])
                  Sample.world resp
                  (PageSample.step Page.ProcessClick PageSample.two_thumbs)
                  Hin)).
Defined.
